(** * Item registry service (FastAPI demo): model and verified properties

    Shallow embedding of [src/.ipynb_checkpoints/main-checkpoint.py]: the
    pydantic request models [ItemCreate] / [ItemUpdate], the stored [Item],
    the process-wide [items_db] dictionary and the five CRUD handlers,
    followed by the properties of the specification that concern them. *)

From Stdlib Require Import Ascii String NArith ZArith PrimFloat FloatOps FloatAxioms SpecFloat.
From stdpp Require Import base option list strings gmap.


(* ===================================================================== *)
(** ** JSON request bodies *)
(* ===================================================================== *)

Set Warnings "-register-all".

(** A decoded JSON value, as [json.loads] hands it to pydantic.  Numbers are
    Python floats (IEEE 754 binary64). *)
Inductive json : Type :=
| JNull
| JBool (b : bool)
| JNum (f : float)
| JStr (s : string)
| JArr (l : list json)
| JObj (o : list (string * json)).

(** A request body is a JSON object: a Python dict from keys to values. *)
Abbreviation body := (gmap string json).

(** [datetime] values are only stored and compared. *)
Definition datetime := Z.

(* ===================================================================== *)
(** ** Pydantic field validation *)
(* ===================================================================== *)

Module Pydantic.

(** Each validator below takes a JSON value of the field's own JSON type
    (string, number, array of strings) and reports [type_error] for any
    other; the length and bound checks are the ones the [Field]
    declarations give.  The conversions pydantic applies to a value of
    another type (a numeric string or a boolean given for a float) are
    library code outside the source and are not part of the model, and a
    list with elements that are not strings is reported once, for the
    field; the properties below are stated for values given in the field's
    own type. *)

(** The kinds of per-field violation pydantic reports. *)
Inductive ErrorKind : Type :=
| value_error_missing          (* required field absent *)
| type_error_none_not_allowed  (* null for a field that is not Optional *)
| type_error                   (* value of the wrong JSON type *)
| any_str_min_length
| any_str_max_length
| number_not_gt
| number_not_ge.

(** One entry of [exc.errors()]: the field and what is wrong with it. *)
Record ErrorDetail : Type := { loc : string; kind : ErrorKind }.

Definition result (T : Type) : Type := ErrorKind + T.

(** [str] with [min_length] / [max_length]. *)
Definition constr_str (min_length max_length : nat) (v : json) : result string :=
  match v with
  | JStr s =>
      if (String.length s <? min_length)%nat then inl any_str_min_length
      else if (max_length <? String.length s)%nat then inl any_str_max_length
      else inr s
  | _ => inl type_error
  end.

(** Unconstrained [str]. *)
Definition plain_str (v : json) : result string :=
  match v with
  | JStr s => inr s
  | _ => inl type_error
  end.

(** [float] with [gt=bound]: rejected unless [v > bound]. *)
Definition float_gt (bound : float) (v : json) : result float :=
  match v with
  | JNum f => if PrimFloat.ltb bound f then inr f else inl number_not_gt
  | _ => inl type_error
  end.

(** [float] with [ge=bound]: rejected unless [v >= bound]. *)
Definition float_ge (bound : float) (v : json) : result float :=
  match v with
  | JNum f => if PrimFloat.leb bound f then inr f else inl number_not_ge
  | _ => inl type_error
  end.

(** [List[str]]: every element must be a string; order and duplicates are
    kept. *)
Fixpoint all_str (l : list json) : result (list string) :=
  match l with
  | [] => inr []
  | JStr s :: l' =>
      match all_str l' with
      | inr ss => inr (s :: ss)
      | inl e => inl e
      end
  | _ :: _ => inl type_error
  end.

Definition list_str (v : json) : result (list string) :=
  match v with
  | JArr l => all_str l
  | _ => inl type_error
  end.

(** [x: T = Field(...)]: required, and null is not a [T]. *)
Definition Field_required {T} (validate : json -> result T)
    (v : option json) : result T :=
  match v with
  | None => inl value_error_missing
  | Some JNull => inl type_error_none_not_allowed
  | Some j => validate j
  end.

(** [x: T = Field(default=d)]: the default when absent, null is not a [T]. *)
Definition Field_default {T} (d : T) (validate : json -> result T)
    (v : option json) : result T :=
  match v with
  | None => inr d
  | Some JNull => inl type_error_none_not_allowed
  | Some j => validate j
  end.

(** [x: Optional[T] = Field(None, ...)] in a model read back with
    [.dict()]: [None] when absent or null, the constraints apply to any
    other value. *)
Definition Field_optional {T} (validate : json -> result T)
    (v : option json) : result (option T) :=
  match v with
  | None => inr None
  | Some JNull => inr None
  | Some j =>
      match validate j with
      | inr t => inr (Some t)
      | inl e => inl e
      end
  end.

(** [x: Optional[T] = Field(None, ...)] in a model read back with
    [.dict(exclude_unset=True)]: the outer option records whether the
    field was set by the caller ([__fields_set__]), the inner one is the
    value, [None] for an explicit null. *)
Definition Field_optional_set {T} (validate : json -> result T)
    (v : option json) : result (option (option T)) :=
  match v with
  | None => inr None
  | Some JNull => inr (Some None)
  | Some j =>
      match validate j with
      | inr t => inr (Some (Some t))
      | inl e => inl e
      end
  end.

(** The error entry a field contributes, if any. *)
Definition errors_of {T} (field : string) (r : result T) : list ErrorDetail :=
  match r with
  | inl e => [ {| loc := field; kind := e |} ]
  | inr _ => []
  end.

Definition rejected {T} (r : result T) : Prop :=
  match r with inl _ => True | inr _ => False end.

End Pydantic.
Import Pydantic.

(* ===================================================================== *)
(** ** The models *)
(* ===================================================================== *)

(** [ItemBase] fields, as [ItemCreate] inherits them. *)
Definition ItemBase_name : option json -> result string :=
  Field_required (constr_str 1 100).
Definition ItemBase_description : option json -> result (option string) :=
  Field_optional plain_str.
Definition ItemBase_price : option json -> result float :=
  Field_required (float_gt 0%float).
Definition ItemBase_tax : option json -> result (option float) :=
  Field_optional (float_ge 0%float).
Definition ItemBase_tags : option json -> result (list string) :=
  Field_default [] list_str.

Record ItemCreate : Type := {
  ItemCreate_name : string;
  ItemCreate_description : option string;
  ItemCreate_price : float;
  ItemCreate_tax : option float;
  ItemCreate_tags : list string
}.

(** [ItemUpdate] fields: every one Optional with default [None]. *)
Definition ItemUpdate_name_field : option json -> result (option (option string)) :=
  Field_optional_set (constr_str 1 100).
Definition ItemUpdate_description_field : option json -> result (option (option string)) :=
  Field_optional_set plain_str.
Definition ItemUpdate_price_field : option json -> result (option (option float)) :=
  Field_optional_set (float_gt 0%float).
Definition ItemUpdate_tax_field : option json -> result (option (option float)) :=
  Field_optional_set (float_ge 0%float).
Definition ItemUpdate_tags_field : option json -> result (option (option (list string))) :=
  Field_optional_set list_str.

(** An [ItemUpdate] instance.  Each field is [None] when the caller did not
    set it and [Some v] when the caller did, [v] being the value ([None] for
    null). *)
Record ItemUpdate : Type := {
  ItemUpdate_name : option (option string);
  ItemUpdate_description : option (option string);
  ItemUpdate_price : option (option float);
  ItemUpdate_tax : option (option float);
  ItemUpdate_tags : option (option (list string))
}.

(** A stored [Item].  The model class declares [name: str], [price: float]
    and [tags: List[str]], but attributes are assigned without validation
    ([setattr] on a model without [validate_assignment]), so the five data
    attributes can hold [None]. *)
Record Item : Type := {
  Item_name : option string;
  Item_description : option string;
  Item_price : option float;
  Item_tax : option float;
  Item_tags : option (list string);
  Item_id : string;
  Item_created_at : datetime;
  Item_updated_at : datetime
}.

(** The field names [ItemBase] declares; [ItemUpdate] declares the same. *)
Definition ItemBase_fields : list string :=
  ["name"; "description"; "price"; "tax"; "tags"].

(** The request body is read only at the declared field names; any other key
    is ignored (pydantic's default [extra = ignore]); every field's error is
    collected. *)
Definition parse_ItemCreate (b : body) : list ErrorDetail + ItemCreate :=
  let name := ItemBase_name (b !! "name") in
  let description := ItemBase_description (b !! "description") in
  let price := ItemBase_price (b !! "price") in
  let tax := ItemBase_tax (b !! "tax") in
  let tags := ItemBase_tags (b !! "tags") in
  match name, description, price, tax, tags with
  | inr n, inr d, inr p, inr t, inr g =>
      inr {| ItemCreate_name := n; ItemCreate_description := d;
             ItemCreate_price := p; ItemCreate_tax := t; ItemCreate_tags := g |}
  | _, _, _, _, _ =>
      inl (errors_of "name" name ++ errors_of "description" description ++
           errors_of "price" price ++ errors_of "tax" tax ++
           errors_of "tags" tags)
  end.

Definition parse_ItemUpdate (b : body) : list ErrorDetail + ItemUpdate :=
  let name := ItemUpdate_name_field (b !! "name") in
  let description := ItemUpdate_description_field (b !! "description") in
  let price := ItemUpdate_price_field (b !! "price") in
  let tax := ItemUpdate_tax_field (b !! "tax") in
  let tags := ItemUpdate_tags_field (b !! "tags") in
  match name, description, price, tax, tags with
  | inr n, inr d, inr p, inr t, inr g =>
      inr {| ItemUpdate_name := n; ItemUpdate_description := d;
             ItemUpdate_price := p; ItemUpdate_tax := t; ItemUpdate_tags := g |}
  | _, _, _, _, _ =>
      inl (errors_of "name" name ++ errors_of "description" description ++
           errors_of "price" price ++ errors_of "tax" tax ++
           errors_of "tags" tags)
  end.

(* ===================================================================== *)
(** ** Generated identifiers: [str(uuid.uuid4())] *)
(* ===================================================================== *)

Module UUID.

Definition hex_digit (d : N) : ascii :=
  match d with
  | 0 => "0" | 1 => "1" | 2 => "2" | 3 => "3" | 4 => "4" | 5 => "5"
  | 6 => "6" | 7 => "7" | 8 => "8" | 9 => "9" | 10 => "a" | 11 => "b"
  | 12 => "c" | 13 => "d" | 14 => "e" | _ => "f"
  end%N%char.

(** The [width] low hexadecimal digits of [n], most significant first. *)
Fixpoint hex_pad (width : nat) (n : N) (acc : string) : string :=
  match width with
  | O => acc
  | S w => hex_pad w (n / 16)%N (String (hex_digit (n mod 16)%N) acc)
  end.

(** [uuid4()]: sixteen random bytes read as a big-endian integer, with the
    RFC 4122 variant and the version number 4 written over their bits. *)
Definition uuid4 (random : N) : N :=
  let int := random in
  let int := N.lor (N.ldiff int (N.shiftl 0xc000 48)) (N.shiftl 0x8000 48) in
  let int := N.lor (N.ldiff int (N.shiftl 0xf000 64)) (N.shiftl 4 76) in
  int.

(** [str(u)]: the 32 hex digits of [u], grouped 8-4-4-4-12. *)
Definition str (int : N) : string :=
  let hex := hex_pad 32 int "" in
  substring 0 8 hex +:+ "-" +:+ substring 8 4 hex +:+ "-" +:+
  substring 12 4 hex +:+ "-" +:+ substring 16 4 hex +:+ "-" +:+
  substring 20 12 hex.

End UUID.

(* ===================================================================== *)
(** ** Python dictionaries (insertion ordered) *)
(* ===================================================================== *)

Section Dict.
Context {V : Type}.

(** A [dict] with string keys: the entries in insertion order, each key
    at most once. *)
Definition dict : Type := list (string * V).

(** [d.get(k)]; [k in d] is [is_Some (dict_get k d)]. *)
Fixpoint dict_get (k : string) (d : dict) : option V :=
  match d with
  | [] => None
  | (k', v) :: d' => if decide (k = k') then Some v else dict_get k d'
  end.

(** [d[k] = v]: an existing key keeps its position, a new one goes last. *)
Fixpoint dict_set (k : string) (v : V) (d : dict) : dict :=
  match d with
  | [] => [(k, v)]
  | (k', v') :: d' =>
      if decide (k = k') then (k, v) :: d' else (k', v') :: dict_set k v d'
  end.

(** [del d[k]] for a key that is present. *)
Fixpoint dict_del (k : string) (d : dict) : dict :=
  match d with
  | [] => []
  | (k', v') :: d' =>
      if decide (k = k') then d' else (k', v') :: dict_del k d'
  end.

Definition dict_keys (d : dict) : list string := d.*1.
Definition dict_values (d : dict) : list V := d.*2.

End Dict.
Arguments dict : clear implicits.

(* ===================================================================== *)
(** ** The service *)
(* ===================================================================== *)

(** What a request is answered with: the value the handler returns or the
    exception it raises, with the status code of the route. *)
Inductive response : Type :=
| JSON_items (status_code : Z) (content : list Item)
| JSON_item (status_code : Z) (content : Item)
| No_content (status_code : Z)
| HTTPException (status_code : Z) (detail : string)
| Validation_error (status_code : Z) (errors : list ErrorDetail).

(** [update_data.items()]: the attributes the caller set, with their
    values. *)
Inductive attr : Type :=
| attr_name (v : option string)
| attr_description (v : option string)
| attr_price (v : option float)
| attr_tax (v : option float)
| attr_tags (v : option (list string)).

(** [item_update.dict(exclude_unset=True)], in field order. *)
Definition dict_exclude_unset (u : ItemUpdate) : list attr :=
  from_option (λ v, [attr_name v]) [] (ItemUpdate_name u) ++
  from_option (λ v, [attr_description v]) [] (ItemUpdate_description u) ++
  from_option (λ v, [attr_price v]) [] (ItemUpdate_price u) ++
  from_option (λ v, [attr_tax v]) [] (ItemUpdate_tax u) ++
  from_option (λ v, [attr_tags v]) [] (ItemUpdate_tags u).

(** [setattr(item_data, field, value)]: plain assignment, no validation. *)
Definition setattr (it : Item) (a : attr) : Item :=
  match a with
  | attr_name v =>
      {| Item_name := v; Item_description := Item_description it;
         Item_price := Item_price it; Item_tax := Item_tax it;
         Item_tags := Item_tags it; Item_id := Item_id it;
         Item_created_at := Item_created_at it;
         Item_updated_at := Item_updated_at it |}
  | attr_description v =>
      {| Item_name := Item_name it; Item_description := v;
         Item_price := Item_price it; Item_tax := Item_tax it;
         Item_tags := Item_tags it; Item_id := Item_id it;
         Item_created_at := Item_created_at it;
         Item_updated_at := Item_updated_at it |}
  | attr_price v =>
      {| Item_name := Item_name it; Item_description := Item_description it;
         Item_price := v; Item_tax := Item_tax it;
         Item_tags := Item_tags it; Item_id := Item_id it;
         Item_created_at := Item_created_at it;
         Item_updated_at := Item_updated_at it |}
  | attr_tax v =>
      {| Item_name := Item_name it; Item_description := Item_description it;
         Item_price := Item_price it; Item_tax := v;
         Item_tags := Item_tags it; Item_id := Item_id it;
         Item_created_at := Item_created_at it;
         Item_updated_at := Item_updated_at it |}
  | attr_tags v =>
      {| Item_name := Item_name it; Item_description := Item_description it;
         Item_price := Item_price it; Item_tax := Item_tax it;
         Item_tags := v; Item_id := Item_id it;
         Item_created_at := Item_created_at it;
         Item_updated_at := Item_updated_at it |}
  end.

(** [item_data.updated_at = current_time]. *)
Definition set_updated_at (it : Item) (t : datetime) : Item :=
  {| Item_name := Item_name it; Item_description := Item_description it;
     Item_price := Item_price it; Item_tax := Item_tax it;
     Item_tags := Item_tags it; Item_id := Item_id it;
     Item_created_at := Item_created_at it;
     Item_updated_at := t |}.

(** The [detail] of the 404 answers. *)
Definition not_found_detail (item_id : string) : string :=
  "Item with ID " +:+ item_id +:+ " not found".

(** The handlers take the registry [items_db] and give it back with their
    answer.  A stored item is one Python object reachable from one key
    only, so assigning to its attributes is writing the new value under
    that key. *)

Definition read_items (items_db : dict Item) : response * dict Item :=
  (JSON_items 200 (dict_values items_db), items_db).

Definition read_item (item_id : string) (items_db : dict Item)
    : response * dict Item :=
  match dict_get item_id items_db with
  | None => (HTTPException 404 (not_found_detail item_id), items_db)
  | Some it => (JSON_item 200 it, items_db)
  end.

(** [random] is what [uuid.uuid4()] draws, [current_time] what
    [get_current_time] returns. *)
Definition create_item (item : ItemCreate) (random : N)
    (current_time : datetime) (items_db : dict Item) : response * dict Item :=
  let item_id := UUID.str (UUID.uuid4 random) in
  let new_item :=
    {| Item_id := item_id;
       Item_created_at := current_time;
       Item_updated_at := current_time;
       Item_name := Some (ItemCreate_name item);
       Item_description := ItemCreate_description item;
       Item_price := Some (ItemCreate_price item);
       Item_tax := ItemCreate_tax item;
       Item_tags := Some (ItemCreate_tags item) |} in
  (JSON_item 201 new_item, dict_set item_id new_item items_db).

Definition update_item (item_id : string) (item_update : ItemUpdate)
    (current_time : datetime) (items_db : dict Item) : response * dict Item :=
  match dict_get item_id items_db with
  | None => (HTTPException 404 (not_found_detail item_id), items_db)
  | Some item_data =>
      let update_data := dict_exclude_unset item_update in
      let item_data := foldl setattr item_data update_data in
      let item_data := set_updated_at item_data current_time in
      (JSON_item 200 item_data, dict_set item_id item_data items_db)
  end.

Definition delete_item (item_id : string) (items_db : dict Item)
    : response * dict Item :=
  match dict_get item_id items_db with
  | None => (HTTPException 404 (not_found_detail item_id), items_db)
  | Some _ => (No_content 204, dict_del item_id items_db)
  end.

(** [validation_exception_handler]. *)
Definition validation_exception_handler (errors : list ErrorDetail) : response :=
  Validation_error 422 errors.

(** The requests of the five routes, with what the environment supplies to
    each: the random bytes of the identifier and the clock reading. *)
Inductive request : Type :=
| GET_items
| GET_item (item_id : string)
| POST_items (b : body) (random : N) (current_time : datetime)
| PUT_item (item_id : string) (b : body) (current_time : datetime)
| DELETE_item (item_id : string).

(** Routing: the body is validated against the handler's parameter model
    first; the handler runs only on a body that passes. *)
Definition serve (req : request) (items_db : dict Item) : response * dict Item :=
  match req with
  | GET_items => read_items items_db
  | GET_item item_id => read_item item_id items_db
  | POST_items b random current_time =>
      match parse_ItemCreate b with
      | inl errors => (validation_exception_handler errors, items_db)
      | inr item => create_item item random current_time items_db
      end
  | PUT_item item_id b current_time =>
      match parse_ItemUpdate b with
      | inl errors => (validation_exception_handler errors, items_db)
      | inr item_update => update_item item_id item_update current_time items_db
      end
  | DELETE_item item_id => delete_item item_id items_db
  end.

(** The registry after a sequence of requests. *)
Definition run (reqs : list request) (items_db : dict Item) : dict Item :=
  foldl (λ db req, (serve req db).2) items_db reqs.

(** The states the service can be in: [items_db = {}] at start, then
    whatever requests lead to. *)
Inductive reachable : dict Item -> Prop :=
| reachable_init : reachable []
| reachable_step req db : reachable db -> reachable (serve req db).2.

(** The [Item] model's own schema (lines 11-16 and 30-34). *)
Definition name_valid (name : option string) : bool :=
  match name with
  | Some s => (1 <=? String.length s)%nat && (String.length s <=? 100)%nat
  | None => false
  end.

Definition price_valid (price : option float) : bool :=
  match price with
  | Some p => PrimFloat.ltb 0%float p
  | None => false
  end.

Definition tax_valid (tax : option float) : bool :=
  match tax with
  | Some t => PrimFloat.leb 0%float t
  | None => true
  end.

Definition tags_valid (tags : option (list string)) : bool :=
  match tags with
  | Some _ => true
  | None => false
  end.

Definition Item_valid (it : Item) : bool :=
  name_valid (Item_name it) && price_valid (Item_price it) &&
  tax_valid (Item_tax it) && tags_valid (Item_tags it).

(** A stored item as the specification wants it: within the schema, and not
    updated before it was created. *)
Definition Item_ok (it : Item) : Prop :=
  Item_valid it = true ∧ (Item_created_at it <= Item_updated_at it)%Z.

(** An update body that gives null to an attribute [Item] requires. *)
Definition nulls_required (b : body) : Prop :=
  b !! "name" = Some JNull ∨ b !! "price" = Some JNull ∨
  b !! "tags" = Some JNull.

(** The requests under which stored items stay as the specification wants
    them: any, except an update that nulls a required attribute or that
    carries a time before the creation of the item it updates. *)
Definition well_behaved (req : request) (db : dict Item) : Prop :=
  match req with
  | PUT_item item_id b now =>
      ¬ nulls_required b ∧
      ∀ it, dict_get item_id db = Some it -> (Item_created_at it <= now)%Z
  | _ => True
  end.

(** What the merge does to each data attribute. *)
Definition merged {T} (patch : option (option T)) (old : option T) : option T :=
  match patch with
  | None => old
  | Some v => v
  end.

(** The registry invariant: keys are distinct and every item is filed under
    its own [id]. *)
Definition registry_wf (db : dict Item) : Prop :=
  NoDup (dict_keys db) ∧ Forall (λ e, Item_id e.2 = e.1) db.

(** The key a request works on, when it has one. *)
Definition touched (req : request) : option string :=
  match req with
  | GET_items => None
  | GET_item item_id => Some item_id
  | POST_items _ random _ => Some (UUID.str (UUID.uuid4 random))
  | PUT_item item_id _ _ => Some item_id
  | DELETE_item item_id => Some item_id
  end.

(* ===================================================================== *)
(** ** Sample requests *)
(* ===================================================================== *)

Set Warnings "-inexact-float".

(** The scenario of the specification: create a widget, change its price. *)
Definition widget_body : body :=
  {[ "name" := JStr "Widget"; "price" := JNum 9.99%float ]}.
Definition widget_id : string := "00000000-0000-4000-8000-000000000000".
Definition widget : Item :=
  {| Item_name := Some "Widget"; Item_description := None;
     Item_price := Some 9.99%float; Item_tax := None; Item_tags := Some [];
     Item_id := widget_id; Item_created_at := 100%Z; Item_updated_at := 100%Z |}.
Definition widget_db : dict Item := [(widget_id, widget)].
Definition price_patch : body := {[ "price" := JNum 12.5%float ]}.
Definition price_update : ItemUpdate :=
  {| ItemUpdate_name := None; ItemUpdate_description := None;
     ItemUpdate_price := Some (Some 12.5%float); ItemUpdate_tax := None;
     ItemUpdate_tags := None |}.

(** A body that sets the name to null, and one with a negative price. *)
Definition null_name_patch : body := {[ "name" := JNull ]}.
Definition bad_price_patch : body := {[ "price" := JNum (-1)%float ]}.

(** The widget with a price of 0.01, and with a name of 100 characters. *)
Definition cent_body : body :=
  {[ "name" := JStr "Widget"; "price" := JNum 0.01%float ]}.
Definition long_name : string :=
  "0123456789012345678901234567890123456789012345678901234567890123456789012345678901234567890123456789".
Definition long_name_body : body :=
  {[ "name" := JStr long_name; "price" := JNum 9.99%float ]}.

(** Three violations at once: empty name, zero price, negative tax. *)
Definition free_body : body :=
  {[ "name" := JStr ""; "price" := JNum 0%float; "tax" := JNum (-1)%float ]}.

(** The widget's body with an id and timestamps of the caller's choosing. *)
Definition forged_body : body :=
  <["id" := JStr "chosen-by-caller"]>
    (<["created_at" := JNum 0%float]>
       (<["updated_at" := JNum 0%float]>
          (<["owner" := JStr "me"]> widget_body))).

(** The request of one update. *)
Definition PUT_of (r : string * body * datetime) : request :=
  PUT_item r.1.1 r.1.2 r.2.

(** A JSON value read as an optional string or number. *)
Definition reads_as_str (v : option json) (d : option string) : Prop :=
  match v with
  | None | Some JNull => d = None
  | Some (JStr s) => d = Some s
  | _ => False
  end.

Definition reads_as_num (v : option json) (t : option float) : Prop :=
  match v with
  | None | Some JNull => t = None
  | Some (JNum f) => t = Some f
  | _ => False
  end.

(** A body with none of the declared fields. *)
Definition unknown_only_body : body := {[ "owner" := JStr "me" ]}.

(** The widget's body with a null description and a null tax. *)
Definition null_optional_body : body :=
  <["description" := JNull]> (<["tax" := JNull]> widget_body).

(** The widget with a description and a tax, and a body that clears both. *)
Definition taxed_widget : Item :=
  {| Item_name := Some "Widget"; Item_description := Some "A widget";
     Item_price := Some 9.99%float; Item_tax := Some 1.5%float;
     Item_tags := Some ["a"; "a"]; Item_id := widget_id;
     Item_created_at := 100%Z; Item_updated_at := 100%Z |}.
Definition clearing_patch : body :=
  {[ "description" := JNull; "tax" := JNull ]}.

(* ===================================================================== *)
(** ** Reading answers and request sequences *)
(* ===================================================================== *)

(** An answer that reports a failure: a raised [HTTPException] or a
    rejected body. *)
Definition is_error (r : response) : bool :=
  match r with
  | HTTPException _ _ | Validation_error _ _ => true
  | _ => false
  end.

Definition is_POST (req : request) : bool :=
  match req with
  | POST_items _ _ _ => true
  | _ => false
  end.

(** Every request of a sequence is well behaved in the state it meets. *)
Fixpoint all_well_behaved (reqs : list request) (db : dict Item) : Prop :=
  match reqs with
  | [] => True
  | req :: reqs' => well_behaved req db ∧ all_well_behaved reqs' (serve req db).2
  end.

(** The character of a string at a position, if any. *)
Definition char_at (s : string) (i : nat) : option ascii := String.get i s.

Example uuid_str_example :
  UUID.str (UUID.uuid4 0) = "00000000-0000-4000-8000-000000000000"%string.
Proof. vm_compute. reflexivity. Qed.

(* ===================================================================== *)
(** ** Facts about dictionaries *)
(* ===================================================================== *)

Section DictFacts.
Context {V : Type}.
Implicit Types (d : dict V) (k : string) (v : V).

Lemma dict_get_set_eq k v d : dict_get k (dict_set k v d) = Some v.
Proof.
  induction d as [|[k' v'] d IH]; simpl.
  - by rewrite decide_True.
  - destruct (decide (k = k')) as [->|Hne]; simpl.
    + by rewrite decide_True.
    + by rewrite decide_False.
Qed.

Lemma dict_get_set_ne k k' v d :
  k ≠ k' -> dict_get k' (dict_set k v d) = dict_get k' d.
Proof.
  intros Hne. induction d as [|[k0 v0] d IH]; simpl.
  - rewrite decide_False; [done | congruence].
  - destruct (decide (k = k0)) as [->|Hk]; simpl.
    + rewrite !decide_False; [done | congruence | congruence].
    + destruct (decide (k' = k0)); [done | apply IH].
Qed.

Lemma dict_get_del_ne k k' d :
  k ≠ k' -> dict_get k' (dict_del k d) = dict_get k' d.
Proof.
  intros Hne. induction d as [|[k0 v0] d IH]; simpl; [done|].
  destruct (decide (k = k0)) as [->|Hk]; simpl.
  - rewrite decide_False; [done | congruence].
  - destruct (decide (k' = k0)); [done | apply IH].
Qed.

Lemma dict_get_None k d : dict_get k d = None <-> k ∉ dict_keys d.
Proof.
  unfold dict_keys. induction d as [|[k' v'] d IH]; simpl.
  - split; [intros _; apply not_elem_of_nil | done].
  - rewrite not_elem_of_cons. destruct (decide (k = k')) as [->|Hne].
    + split; [done | intros [? _]; done].
    + rewrite IH. tauto.
Qed.

Lemma dict_get_elem_of k v d : dict_get k d = Some v -> (k, v) ∈ d.
Proof.
  induction d as [|[k' v'] d IH]; simpl; [done|].
  destruct (decide (k = k')) as [->|Hne].
  - intros [= ->]. apply list_elem_of_here.
  - intros H. apply list_elem_of_further, IH, H.
Qed.

Lemma dict_elem_of_get k v d :
  NoDup (dict_keys d) -> (k, v) ∈ d -> dict_get k d = Some v.
Proof.
  unfold dict_keys. induction d as [|[k' v'] d IH]; simpl.
  - intros _ H. by apply elem_of_nil in H.
  - intros Hnd Hin. apply NoDup_cons in Hnd as [Hk' Hnd].
    apply elem_of_cons in Hin as [[= -> ->]|Hin].
    + by rewrite decide_True.
    + destruct (decide (k = k')) as [->|Hne]; [|by apply IH].
      exfalso. apply Hk'. apply list_elem_of_fmap. by exists (k', v).
Qed.


(** A new key goes to the end. *)
Lemma dict_set_fresh k v d :
  dict_get k d = None -> dict_set k v d = d ++ [(k, v)].
Proof.
  induction d as [|[k' v'] d IH]; simpl; [done|].
  destruct (decide (k = k')); [done|]. intros H. by rewrite IH.
Qed.

(** An existing key keeps its place. *)
Lemma dict_keys_set_present k v d :
  is_Some (dict_get k d) -> dict_keys (dict_set k v d) = dict_keys d.
Proof.
  unfold dict_keys. induction d as [|[k' v'] d IH]; simpl.
  - intros [? ?]; done.
  - destruct (decide (k = k')) as [->|Hne]; simpl; [done|].
    intros H. f_equal. by apply IH.
Qed.

Lemma dict_keys_set k v d :
  dict_keys (dict_set k v d) =
    match dict_get k d with
    | Some _ => dict_keys d
    | None => dict_keys d ++ [k]
    end.
Proof.
  destruct (dict_get k d) as [v'|] eqn:E.
  - apply dict_keys_set_present. by exists v'.
  - rewrite dict_set_fresh by done. unfold dict_keys. by rewrite fmap_app.
Qed.

Lemma dict_set_NoDup k v d :
  NoDup (dict_keys d) -> NoDup (dict_keys (dict_set k v d)).
Proof.
  intros Hnd. rewrite dict_keys_set.
  destruct (dict_get k d) eqn:E; [done|].
  apply NoDup_app. split; [done|]. split; [|apply NoDup_singleton].
  intros x Hx Hx'. apply list_elem_of_singleton in Hx' as ->.
  by apply dict_get_None in E.
Qed.

Lemma dict_del_subseteq k d : dict_del k d ⊆ d.
Proof.
  induction d as [|[k' v'] d IH]; simpl; [done|].
  destruct (decide (k = k')).
  - intros x Hx. by apply list_elem_of_further.
  - intros x Hx. apply elem_of_cons in Hx as [->|Hx].
    + apply list_elem_of_here.
    + apply list_elem_of_further. by apply IH.
Qed.

Lemma dict_del_keys_sublist k d : dict_keys (dict_del k d) `sublist_of` dict_keys d.
Proof.
  unfold dict_keys. induction d as [|[k' v'] d IH]; simpl; [done|].
  destruct (decide (k = k')); simpl.
  - by apply sublist_cons.
  - by apply sublist_skip.
Qed.

Lemma dict_del_NoDup k d :
  NoDup (dict_keys d) -> NoDup (dict_keys (dict_del k d)).
Proof. intros. eapply sublist_NoDup; [done | apply dict_del_keys_sublist]. Qed.

Lemma dict_set_elem_of k v k' v' d :
  (k', v') ∈ dict_set k v d -> (k', v') = (k, v) ∨ (k', v') ∈ d.
Proof.
  induction d as [|[k0 v0] d IH]; simpl.
  - intros H. apply list_elem_of_singleton in H. by left.
  - destruct (decide (k = k0)) as [->|Hne]; intros H;
      apply elem_of_cons in H as [H|H].
    + by left.
    + right. by apply list_elem_of_further.
    + right. rewrite H. apply list_elem_of_here.
    + destruct (IH H) as [?|?]; [by left|].
      right. by apply list_elem_of_further.
Qed.

End DictFacts.

(* ===================================================================== *)
(** ** Facts about the handlers *)
(* ===================================================================== *)

(** Attribute assignment from an update never reaches [id], [created_at] or
    [updated_at]: [ItemUpdate] has no such fields. *)
Lemma foldl_setattr_id (l : list attr) (it : Item) :
  Item_id (foldl setattr it l) = Item_id it.
Proof.
  revert it. induction l as [|a l IH]; intros it; simpl; [done|].
  rewrite IH. by destruct a.
Qed.

Lemma foldl_setattr_created_at (l : list attr) (it : Item) :
  Item_created_at (foldl setattr it l) = Item_created_at it.
Proof.
  revert it. induction l as [|a l IH]; intros it; simpl; [done|].
  rewrite IH. by destruct a.
Qed.

Lemma merge_fields (u : ItemUpdate) (it : Item) :
  let it' := foldl setattr it (dict_exclude_unset u) in
  Item_name it' = merged (ItemUpdate_name u) (Item_name it) ∧
  Item_description it' = merged (ItemUpdate_description u) (Item_description it) ∧
  Item_price it' = merged (ItemUpdate_price u) (Item_price it) ∧
  Item_tax it' = merged (ItemUpdate_tax u) (Item_tax it) ∧
  Item_tags it' = merged (ItemUpdate_tags u) (Item_tags it).
Proof.
  destruct u as [[n|] [d|] [p|] [t|] [g|]]; cbn; done.
Qed.

Lemma parse_ItemUpdate_fields (b : body) (u : ItemUpdate) :
  parse_ItemUpdate b = inr u ->
  ItemUpdate_name_field (b !! "name") = inr (ItemUpdate_name u) ∧
  ItemUpdate_description_field (b !! "description") = inr (ItemUpdate_description u) ∧
  ItemUpdate_price_field (b !! "price") = inr (ItemUpdate_price u) ∧
  ItemUpdate_tax_field (b !! "tax") = inr (ItemUpdate_tax u) ∧
  ItemUpdate_tags_field (b !! "tags") = inr (ItemUpdate_tags u).
Proof.
  unfold parse_ItemUpdate.
  destruct (ItemUpdate_name_field _), (ItemUpdate_description_field _),
    (ItemUpdate_price_field _), (ItemUpdate_tax_field _),
    (ItemUpdate_tags_field _); intros [= <-]; done.
Qed.

Lemma parse_ItemCreate_fields (b : body) (item : ItemCreate) :
  parse_ItemCreate b = inr item ->
  ItemBase_name (b !! "name") = inr (ItemCreate_name item) ∧
  ItemBase_description (b !! "description") = inr (ItemCreate_description item) ∧
  ItemBase_price (b !! "price") = inr (ItemCreate_price item) ∧
  ItemBase_tax (b !! "tax") = inr (ItemCreate_tax item) ∧
  ItemBase_tags (b !! "tags") = inr (ItemCreate_tags item).
Proof.
  unfold parse_ItemCreate.
  destruct (ItemBase_name _), (ItemBase_description _), (ItemBase_price _),
    (ItemBase_tax _), (ItemBase_tags _); intros [= <-]; done.
Qed.

Lemma registry_wf_set (k : string) (it : Item) (db : dict Item) :
  Item_id it = k -> registry_wf db -> registry_wf (dict_set k it db).
Proof.
  intros Hid [Hnd Hall]. split; [by apply dict_set_NoDup|].
  apply Forall_forall. intros [k' it'] Hin.
  apply dict_set_elem_of in Hin as [[= -> ->]|Hin]; [done|].
  rewrite Forall_forall in Hall. by apply (Hall (k', it')).
Qed.

Lemma registry_wf_del (k : string) (db : dict Item) :
  registry_wf db -> registry_wf (dict_del k db).
Proof.
  intros [Hnd Hall]. split; [by apply dict_del_NoDup|].
  apply Forall_forall. intros e Hin. rewrite Forall_forall in Hall.
  by apply Hall, (dict_del_subseteq k).
Qed.

Lemma registry_wf_get (k : string) (it : Item) (db : dict Item) :
  registry_wf db -> dict_get k db = Some it -> Item_id it = k.
Proof.
  intros [_ Hall] Hget. rewrite Forall_forall in Hall.
  by apply (Hall (k, it)), dict_get_elem_of.
Qed.

Lemma serve_wf (req : request) (db : dict Item) :
  registry_wf db -> registry_wf (serve req db).2.
Proof.
  intros Hwf. destruct req as [|k|b r t|k b t|k]; simpl.
  - done.
  - unfold read_item. by destruct (dict_get k db).
  - destruct (parse_ItemCreate b); [done|]. simpl. by apply registry_wf_set.
  - destruct (parse_ItemUpdate b) as [|u]; [done|]. unfold update_item.
    destruct (dict_get k db) as [it|] eqn:E; [|done]. simpl.
    apply registry_wf_set; [|done]. simpl. rewrite foldl_setattr_id.
    by eapply registry_wf_get.
  - unfold delete_item. destruct (dict_get k db); [|done].
    by apply registry_wf_del.
Qed.

Lemma reachable_wf (db : dict Item) : reachable db -> registry_wf db.
Proof.
  induction 1 as [|req db _ IH].
  - split; [apply NoDup_nil_2 | apply Forall_nil_2].
  - by apply serve_wf.
Qed.

Lemma reachable_run (reqs : list request) (db : dict Item) :
  reachable db -> reachable (run reqs db).
Proof.
  revert db. induction reqs as [|req reqs IH]; intros db H; [done|].
  apply IH. by constructor.
Qed.

(** Every request leaves the entries under other keys alone. *)
Lemma serve_other (req : request) (db : dict Item) (k : string) :
  touched req ≠ Some k -> dict_get k (serve req db).2 = dict_get k db.
Proof.
  intros Hk. destruct req as [|k'|b r t|k' b t|k']; simpl in *.
  - done.
  - unfold read_item. by destruct (dict_get k' db).
  - destruct (parse_ItemCreate b); [done|]. simpl.
    apply dict_get_set_ne. congruence.
  - destruct (parse_ItemUpdate b); [done|]. unfold update_item.
    destruct (dict_get k' db); [|done]. simpl.
    apply dict_get_set_ne. congruence.
  - unfold delete_item. destruct (dict_get k' db); [|done]. simpl.
    apply dict_get_del_ne. congruence.
Qed.

Lemma dict_values_ids (db : dict Item) :
  registry_wf db -> Item_id <$> dict_values db = dict_keys db.
Proof.
  intros [_ Hall]. unfold dict_values, dict_keys.
  induction Hall as [|[k it] db Hk _ IH]; [done|].
  simpl in *. f_equal; [exact Hk | exact IH].
Qed.

Lemma dict_values_elem_of (db : dict Item) (it : Item) :
  registry_wf db -> it ∈ dict_values db -> dict_get (Item_id it) db = Some it.
Proof.
  intros Hwf Hin. unfold dict_values in Hin.
  apply list_elem_of_fmap in Hin as ([k it'] & -> & Hin). simpl.
  destruct Hwf as [Hnd Hall]. rewrite Forall_forall in Hall.
  specialize (Hall _ Hin). simpl in Hall. rewrite Hall.
  by apply dict_elem_of_get.
Qed.

(* ===================================================================== *)
(** ** Update is a merge *)
(* ===================================================================== *)

Example create_widget :
  serve (POST_items widget_body 0 100%Z) [] = (JSON_item 201 widget, widget_db).
Proof. vm_compute. reflexivity. Qed.

Example parse_price_patch : parse_ItemUpdate price_patch = inr price_update.
Proof. vm_compute. reflexivity. Qed.

(** C1. For a stored item and an update body that passes validation,
    [PUT /items/{id}] answers 200 with an item that is the one then stored
    under the id; its [updated_at] is the current time; every attribute the
    body does not mention keeps its value (and so do [id] and [created_at],
    which no body can mention); an attribute the body mentions takes the
    body's value. *)
Theorem update_item_merges (item_id : string) (b : body) (u : ItemUpdate)
    (now : datetime) (db : dict Item) (it : Item) :
  dict_get item_id db = Some it ->
  parse_ItemUpdate b = inr u ->
  ∃ it' db',
    serve (PUT_item item_id b now) db = (JSON_item 200 it', db') ∧
    dict_get item_id db' = Some it' ∧
    Item_updated_at it' = now ∧
    (b !! "name" = None -> Item_name it' = Item_name it) ∧
    (b !! "description" = None -> Item_description it' = Item_description it) ∧
    (b !! "price" = None -> Item_price it' = Item_price it) ∧
    (b !! "tax" = None -> Item_tax it' = Item_tax it) ∧
    (b !! "tags" = None -> Item_tags it' = Item_tags it) ∧
    Item_id it' = Item_id it ∧
    Item_created_at it' = Item_created_at it ∧
    (∀ v, ItemUpdate_name u = Some v -> Item_name it' = v) ∧
    (∀ v, ItemUpdate_description u = Some v -> Item_description it' = v) ∧
    (∀ v, ItemUpdate_price u = Some v -> Item_price it' = v) ∧
    (∀ v, ItemUpdate_tax u = Some v -> Item_tax it' = v) ∧
    (∀ v, ItemUpdate_tags u = Some v -> Item_tags it' = v).
Proof.
  intros Hget Hparse.
  destruct (parse_ItemUpdate_fields b u Hparse) as (Hn & Hd & Hp & Ht & Hg).
  destruct (merge_fields u it) as (Mn & Md & Mp & Mt & Mg).
  simpl. rewrite Hparse. unfold update_item. rewrite Hget.
  eexists _, _. split; [reflexivity|].
  split; [apply dict_get_set_eq|]. simpl.
  split; [done|].
  repeat split.
  - intros E. rewrite E in Hn. injection Hn as Hn. by rewrite Mn, <- Hn.
  - intros E. rewrite E in Hd. injection Hd as Hd. by rewrite Md, <- Hd.
  - intros E. rewrite E in Hp. injection Hp as Hp. by rewrite Mp, <- Hp.
  - intros E. rewrite E in Ht. injection Ht as Ht. by rewrite Mt, <- Ht.
  - intros E. rewrite E in Hg. injection Hg as Hg. by rewrite Mg, <- Hg.
  - apply foldl_setattr_id.
  - apply foldl_setattr_created_at.
  - intros v E. by rewrite Mn, E.
  - intros v E. by rewrite Md, E.
  - intros v E. by rewrite Mp, E.
  - intros v E. by rewrite Mt, E.
  - intros v E. by rewrite Mg, E.
Qed.

Lemma update_item_merges_witness :
  dict_get widget_id widget_db = Some widget ∧
  parse_ItemUpdate price_patch = inr price_update ∧
  ∃ it',
    (serve (PUT_item widget_id price_patch 200%Z) widget_db).1 = JSON_item 200 it' ∧
    Item_name it' = Some "Widget" ∧
    Item_price it' = Some 12.5%float ∧
    Item_updated_at it' = 200%Z.
Proof.
  assert (H1 : dict_get widget_id widget_db = Some widget) by reflexivity.
  assert (H2 : parse_ItemUpdate price_patch = inr price_update)
    by (vm_compute; reflexivity).
  split; [exact H1|]. split; [exact H2|].
  destruct (update_item_merges widget_id price_patch price_update 200%Z
              widget_db widget H1 H2)
    as (it' & db' & Hs & _ & Ht & Hn & _ & _ & _ & _ & _ & _ & _ & _ & Hp & _).
  exists it'. rewrite Hs. split; [reflexivity|].
  split; [by rewrite Hn|]. split; [by apply Hp | exact Ht].
Defined.

(* ===================================================================== *)
(** ** Create *)
(* ===================================================================== *)



Lemma all_str_inv (l : list json) (g : list string) :
  all_str l = inr g -> l = JStr <$> g.
Proof.
  revert g. induction l as [|j l IH]; intros g; simpl.
  - by intros [= <-].
  - destruct j; try done. destruct (all_str l) as [|ss]; [done|].
    intros [= <-]. simpl. f_equal. by apply IH.
Qed.

(** What a body that passes [ItemCreate] holds at each field. *)
Lemma ItemBase_name_inv (v : option json) (n : string) :
  ItemBase_name v = inr n ->
  v = Some (JStr n) ∧ 1 <= String.length n <= 100.
Proof.
  unfold ItemBase_name, Field_required, constr_str.
  destruct v as [[]|]; try done.
  destruct (Nat.ltb_spec (String.length s) 1); [done|].
  destruct (Nat.ltb_spec 100 (String.length s)); [done|].
  intros [= <-]. split; [done | lia].
Qed.

Lemma ItemBase_price_inv (v : option json) (p : float) :
  ItemBase_price v = inr p ->
  v = Some (JNum p) ∧ PrimFloat.ltb 0%float p = true.
Proof.
  unfold ItemBase_price, Field_required, float_gt.
  destruct v as [[]|]; try done.
  destruct (PrimFloat.ltb 0%float f) eqn:E; [|done].
  by intros [= <-].
Qed.

Lemma ItemBase_description_inv (v : option json) (d : option string) :
  ItemBase_description v = inr d -> reads_as_str v d.
Proof.
  unfold ItemBase_description, Field_optional, plain_str, reads_as_str.
  destruct v as [[]|]; try done; by intros [= <-].
Qed.

Lemma ItemBase_tax_inv (v : option json) (t : option float) :
  ItemBase_tax v = inr t ->
  reads_as_num v t ∧ ∀ f, t = Some f -> PrimFloat.leb 0%float f = true.
Proof.
  unfold ItemBase_tax, Field_optional, float_ge, reads_as_num.
  destruct v as [[]|]; try done; try (by intros [= <-]).
  destruct (PrimFloat.leb 0%float f) eqn:E; [|done].
  intros [= <-]. split; [done|]. by intros ? [= <-].
Qed.

Lemma ItemBase_tags_inv (v : option json) (g : list string) :
  ItemBase_tags v = inr g ->
  match v with
  | None => g = []
  | Some (JArr l) => l = JStr <$> g
  | _ => False
  end.
Proof.
  unfold ItemBase_tags, Field_default, list_str.
  destruct v as [[]|]; try done; [|by intros [= <-]].
  apply all_str_inv.
Qed.


Lemma reachable_widget_db : reachable widget_db.
Proof.
  change widget_db with (serve (POST_items widget_body 0 100%Z) []).2.
  constructor. constructor.
Qed.


(** *** Distinct UUIDs give distinct ids *)
















(* ===================================================================== *)
(** ** Validation of create bodies *)
(* ===================================================================== *)

(** A float equal to or below zero is not above it. *)
Lemma float_le_zero_not_gt (p : float) :
  PrimFloat.eqb p 0%float = true ∨ PrimFloat.ltb p 0%float = true ->
  PrimFloat.ltb 0%float p = false.
Proof.
  rewrite FloatAxioms.eqb_spec, !FloatAxioms.ltb_spec.
  change (Prim2SF 0%float) with (S754_zero false).
  destruct (Prim2SF p) as [[]|[]| |[] m e]; cbv; intuition congruence.
Qed.

Lemma elem_of_errors_of {T} (f field : string) (r : result T) :
  f ∈ loc <$> errors_of field r <-> f = field ∧ rejected r.
Proof.
  destruct r; simpl.
  - rewrite list_elem_of_singleton. tauto.
  - split; [intros H; by apply elem_of_nil in H | tauto].
Qed.

(** The fields an error answer names are the rejected ones. *)
Lemma parse_ItemCreate_errors (b : body) (errs : list ErrorDetail) :
  parse_ItemCreate b = inl errs ->
  errs = errors_of "name" (ItemBase_name (b !! "name")) ++
         errors_of "description" (ItemBase_description (b !! "description")) ++
         errors_of "price" (ItemBase_price (b !! "price")) ++
         errors_of "tax" (ItemBase_tax (b !! "tax")) ++
         errors_of "tags" (ItemBase_tags (b !! "tags")).
Proof.
  unfold parse_ItemCreate.
  destruct (ItemBase_name _), (ItemBase_description _), (ItemBase_price _),
    (ItemBase_tax _), (ItemBase_tags _); by intros [= <-].
Qed.

Lemma parse_ItemCreate_rejects (b : body) :
  rejected (ItemBase_name (b !! "name")) ∨
  rejected (ItemBase_description (b !! "description")) ∨
  rejected (ItemBase_price (b !! "price")) ∨
  rejected (ItemBase_tax (b !! "tax")) ∨
  rejected (ItemBase_tags (b !! "tags")) ->
  ∃ errs, parse_ItemCreate b = inl errs.
Proof.
  unfold parse_ItemCreate.
  destruct (ItemBase_name _), (ItemBase_description _), (ItemBase_price _),
    (ItemBase_tax _), (ItemBase_tags _); simpl; try (by eexists).
  tauto.
Qed.

Lemma parse_ItemCreate_accepts (b : body) :
  ¬ rejected (ItemBase_name (b !! "name")) ->
  ¬ rejected (ItemBase_description (b !! "description")) ->
  ¬ rejected (ItemBase_price (b !! "price")) ->
  ¬ rejected (ItemBase_tax (b !! "tax")) ->
  ¬ rejected (ItemBase_tags (b !! "tags")) ->
  ∃ item, parse_ItemCreate b = inr item.
Proof.
  unfold parse_ItemCreate.
  destruct (ItemBase_name _), (ItemBase_description _), (ItemBase_price _),
    (ItemBase_tax _), (ItemBase_tags _); simpl; try tauto.
  by eexists.
Qed.

Lemma parse_ItemCreate_named (b : body) (errs : list ErrorDetail) :
  parse_ItemCreate b = inl errs ->
  (rejected (ItemBase_name (b !! "name")) <-> "name" ∈ loc <$> errs) ∧
  (rejected (ItemBase_description (b !! "description")) <->
     "description" ∈ loc <$> errs) ∧
  (rejected (ItemBase_price (b !! "price")) <-> "price" ∈ loc <$> errs) ∧
  (rejected (ItemBase_tax (b !! "tax")) <-> "tax" ∈ loc <$> errs) ∧
  (rejected (ItemBase_tags (b !! "tags")) <-> "tags" ∈ loc <$> errs).
Proof.
  intros H. rewrite (parse_ItemCreate_errors b errs H).
  rewrite !fmap_app.
  repeat split; rewrite ?elem_of_app, !elem_of_errors_of;
    intuition congruence.
Qed.

(** C5. [POST /items] answers 422 whenever the body's price is zero or
    negative, and whenever its name is empty or 101 characters long; it
    creates the item when the price is 0.01, or the name 100 characters
    long, and the other fields pass; a 422 answer names exactly the fields
    that were rejected, and leaves the registry as it was. *)
Theorem create_item_validation (b : body) (random : N) (now : datetime)
    (db : dict Item) :
  let out := serve (POST_items b random now) db in
  (∀ p, b !! "price" = Some (JNum p) ->
        PrimFloat.eqb p 0%float = true ∨ PrimFloat.ltb p 0%float = true ->
        ∃ errs, out = (Validation_error 422 errs, db) ∧ "price" ∈ loc <$> errs) ∧
  (∀ s, b !! "name" = Some (JStr s) ->
        String.length s = 0 ∨ String.length s = 101 ->
        ∃ errs, out = (Validation_error 422 errs, db) ∧ "name" ∈ loc <$> errs) ∧
  (b !! "price" = Some (JNum 0.01%float) ->
   ¬ rejected (ItemBase_name (b !! "name")) ->
   ¬ rejected (ItemBase_description (b !! "description")) ->
   ¬ rejected (ItemBase_tax (b !! "tax")) ->
   ¬ rejected (ItemBase_tags (b !! "tags")) ->
   ∃ it, out.1 = JSON_item 201 it ∧ Item_price it = Some 0.01%float) ∧
  (∀ s, b !! "name" = Some (JStr s) ->
        String.length s = 100 ->
        ¬ rejected (ItemBase_description (b !! "description")) ->
        ¬ rejected (ItemBase_price (b !! "price")) ->
        ¬ rejected (ItemBase_tax (b !! "tax")) ->
        ¬ rejected (ItemBase_tags (b !! "tags")) ->
        ∃ it, out.1 = JSON_item 201 it ∧ Item_name it = Some s) ∧
  (∀ errs, out.1 = Validation_error 422 errs ->
     out.2 = db ∧
     (rejected (ItemBase_name (b !! "name")) <-> "name" ∈ loc <$> errs) ∧
     (rejected (ItemBase_description (b !! "description")) <->
        "description" ∈ loc <$> errs) ∧
     (rejected (ItemBase_price (b !! "price")) <-> "price" ∈ loc <$> errs) ∧
     (rejected (ItemBase_tax (b !! "tax")) <-> "tax" ∈ loc <$> errs) ∧
     (rejected (ItemBase_tags (b !! "tags")) <-> "tags" ∈ loc <$> errs)).
Proof.
  cbv zeta. simpl. split; [|split; [|split; [|split]]].
  - intros p Hp Hle.
    assert (Hrej : rejected (ItemBase_price (b !! "price"))).
    { rewrite Hp. unfold ItemBase_price, Field_required, float_gt.
      by rewrite (float_le_zero_not_gt p Hle). }
    destruct (parse_ItemCreate_rejects b) as [errs He]; [tauto|].
    rewrite He. exists errs. split; [done|].
    by apply (parse_ItemCreate_named b errs He).
  - intros s Hs Hlen.
    assert (Hrej : rejected (ItemBase_name (b !! "name"))).
    { rewrite Hs. unfold ItemBase_name, Field_required, constr_str.
      destruct Hlen as [->| ->]; done. }
    destruct (parse_ItemCreate_rejects b) as [errs He]; [tauto|].
    rewrite He. exists errs. split; [done|].
    by apply (parse_ItemCreate_named b errs He).
  - intros Hp Hn Hd Ht Hg.
    destruct (parse_ItemCreate_accepts b) as [item Hi]; try done.
    { rewrite Hp. vm_compute. tauto. }
    rewrite Hi. eexists. split; [reflexivity|]. simpl.
    apply parse_ItemCreate_fields in Hi as (_ & _ & Hi & _).
    rewrite Hp in Hi. by injection Hi as <-.
  - intros s Hs Hlen Hd Hp Ht Hg.
    destruct (parse_ItemCreate_accepts b) as [item Hi]; try done.
    { rewrite Hs. unfold ItemBase_name, Field_required, constr_str.
      rewrite Hlen. simpl. tauto. }
    rewrite Hi. eexists. split; [reflexivity|]. simpl.
    apply parse_ItemCreate_fields in Hi as (Hi & _).
    apply ItemBase_name_inv in Hi as [Hi _]. rewrite Hs in Hi.
    by injection Hi as <-.
  - intros errs H. destruct (parse_ItemCreate b) as [l|item] eqn:E; [|done].
    simpl in H. injection H as <-. split; [done|].
    by apply parse_ItemCreate_named.
Qed.

Example create_free_body :
  serve (POST_items free_body 0 100%Z) widget_db =
    (Validation_error 422
       [ {| loc := "name"; kind := any_str_min_length |};
         {| loc := "price"; kind := number_not_gt |};
         {| loc := "tax"; kind := number_not_ge |} ],
     widget_db).
Proof. vm_compute. reflexivity. Qed.

Example create_cent_body :
  ∃ it, serve (POST_items cent_body 0 100%Z) [] = (JSON_item 201 it, [(widget_id, it)]).
Proof. eexists. vm_compute. reflexivity. Qed.

Example create_long_name_body :
  String.length long_name = 100 ∧
  ∃ it, serve (POST_items long_name_body 0 100%Z) [] = (JSON_item 201 it, [(widget_id, it)]).
Proof. split; [reflexivity|]. eexists. vm_compute. reflexivity. Qed.

Lemma create_item_validation_witness :
  free_body !! "price" = Some (JNum 0%float) ∧
  PrimFloat.eqb 0%float 0%float = true ∧
  ∃ errs,
    serve (POST_items free_body 0 100%Z) widget_db =
      (Validation_error 422 errs, widget_db) ∧
    "price" ∈ loc <$> errs.
Proof.
  assert (H1 : free_body !! "price" = Some (JNum 0%float))
    by (vm_compute; reflexivity).
  assert (H2 : PrimFloat.eqb 0%float 0%float = true) by reflexivity.
  split; [exact H1|]. split; [exact H2|].
  destruct (create_item_validation free_body 0 100%Z widget_db) as (Hprice & _).
  apply (Hprice 0%float H1). by left.
Defined.

(* ===================================================================== *)
(** ** The schema of stored items *)
(* ===================================================================== *)

Lemma Field_optional_set_inv {T} (validate : json -> result T)
    (v : option json) (r : option (option T)) :
  Field_optional_set validate v = inr r ->
  (v = None ∧ r = None) ∨
  (v = Some JNull ∧ r = Some None) ∨
  (∃ j t, v = Some j ∧ validate j = inr t ∧ r = Some (Some t)).
Proof.
  destruct v as [j|]; simpl; [|intros [= <-]; by left].
  destruct j; try (intros [= <-]; right; by left);
    match goal with
    | |- context [validate ?j] =>
        destruct (validate j) as [|t] eqn:E; [done|];
        intros [= <-]; right; right; by exists j, t
    end.
Qed.

Lemma constr_str_valid (j : json) (n : string) :
  constr_str 1 100 j = inr n -> name_valid (Some n) = true.
Proof.
  unfold constr_str, name_valid. destruct j; try done.
  destruct (Nat.ltb_spec (String.length s) 1); [done|].
  destruct (Nat.ltb_spec 100 (String.length s)); [done|].
  intros [= <-]. apply andb_true_iff. split; apply Nat.leb_le; lia.
Qed.

Lemma float_gt_valid (j : json) (p : float) :
  float_gt 0%float j = inr p -> price_valid (Some p) = true.
Proof.
  unfold float_gt, price_valid. destruct j; try done.
  destruct (PrimFloat.ltb 0%float f) eqn:E; [|done]. by intros [= <-].
Qed.

Lemma float_ge_valid (j : json) (t : float) :
  float_ge 0%float j = inr t -> tax_valid (Some t) = true.
Proof.
  unfold float_ge, tax_valid. destruct j; try done.
  destruct (PrimFloat.leb 0%float f) eqn:E; [|done]. by intros [= <-].
Qed.

(** A created item is within the schema. *)
Lemma create_item_valid (b : body) (item : ItemCreate) (random : N)
    (now : datetime) (db : dict Item) (it : Item) (db' : dict Item) :
  parse_ItemCreate b = inr item ->
  create_item item random now db = (JSON_item 201 it, db') ->
  Item_ok it.
Proof.
  intros Hparse [= <- <-].
  destruct (parse_ItemCreate_fields b item Hparse) as (Hn & _ & Hp & Ht & _).
  split; [|simpl; lia]. unfold Item_valid.
  cbn [Item_name Item_price Item_tax Item_tags].
  rewrite !andb_true_iff. repeat split.
  - apply ItemBase_name_inv in Hn as [_ Hlen].
    apply andb_true_iff. split; apply Nat.leb_le; lia.
  - by apply ItemBase_price_inv in Hp as [_ Hp].
  - apply ItemBase_tax_inv in Ht as [_ Ht].
    destruct (ItemCreate_tax item) as [t|]; [|done]. by apply Ht.
Qed.

(** An update that nulls no required attribute keeps the item within the
    schema. *)
Lemma merge_valid (b : body) (u : ItemUpdate) (it : Item) :
  parse_ItemUpdate b = inr u ->
  ¬ nulls_required b ->
  Item_valid it = true ->
  Item_valid (foldl setattr it (dict_exclude_unset u)) = true.
Proof.
  intros Hparse Hnull. unfold nulls_required in Hnull.
  destruct (parse_ItemUpdate_fields b u Hparse) as (Hn & _ & Hp & Ht & Hg).
  destruct (merge_fields u it) as (Mn & _ & Mp & Mt & Mg).
  unfold Item_valid. rewrite Mn, Mp, Mt, Mg, !andb_true_iff.
  intros [[[Vn Vp] Vt] Vg]. repeat split.
  - apply Field_optional_set_inv in Hn
      as [[_ ->]|[[E _]|(j & n & _ & Hj & ->)]]; simpl; [done|tauto|].
    by eapply constr_str_valid.
  - apply Field_optional_set_inv in Hp
      as [[_ ->]|[[E _]|(j & p & _ & Hj & ->)]]; simpl; [done|tauto|].
    by eapply float_gt_valid.
  - apply Field_optional_set_inv in Ht
      as [[_ ->]|[[_ ->]|(j & t & _ & Hj & ->)]]; simpl; [done|done|].
    by eapply float_ge_valid.
  - apply Field_optional_set_inv in Hg
      as [[_ ->]|[[E _]|(j & g & _ & Hj & ->)]]; simpl; [done|tauto|done].
Qed.

Lemma dict_set_Forall (P : Item -> Prop) (k : string) (it : Item) (db : dict Item) :
  P it -> Forall (λ e, P e.2) db -> Forall (λ e, P e.2) (dict_set k it db).
Proof.
  intros Hit Hall. apply Forall_forall. intros [k' it'] Hin.
  apply dict_set_elem_of in Hin as [[= -> ->]|Hin]; [done|].
  rewrite Forall_forall in Hall. by apply (Hall (k', it')).
Qed.

Lemma dict_del_Forall (P : Item -> Prop) (k : string) (db : dict Item) :
  Forall (λ e, P e.2) db -> Forall (λ e, P e.2) (dict_del k db).
Proof.
  intros Hall. apply Forall_forall. intros e Hin.
  rewrite Forall_forall in Hall. by apply Hall, (dict_del_subseteq k).
Qed.

(** Apart from updates that null a required attribute (and clock readings
    that run backwards), every request keeps the stored items as the
    specification wants them. *)
Lemma serve_keeps_schema (req : request) (db : dict Item) :
  well_behaved req db ->
  Forall (λ e, Item_ok e.2) db ->
  Forall (λ e, Item_ok e.2) (serve req db).2.
Proof.
  intros Hreq Hall. destruct req as [|k|b r t|k b t|k]; simpl in *.
  - done.
  - unfold read_item. by destruct (dict_get k db).
  - destruct (parse_ItemCreate b) as [|item] eqn:E; [done|].
    apply dict_set_Forall; [|done].
    by eapply (create_item_valid b item r t db).
  - destruct Hreq as [Hnull Hclock].
    destruct (parse_ItemUpdate b) as [|u] eqn:E; [done|]. unfold update_item.
    destruct (dict_get k db) as [it|] eqn:Hget; [|done]. simpl.
    apply dict_set_Forall; [|done].
    rewrite Forall_forall in Hall.
    destruct (Hall (k, it) (dict_get_elem_of _ _ _ Hget)) as [Hv _].
    split.
    + change (Item_valid (foldl setattr it (dict_exclude_unset u)) = true).
      by eapply merge_valid.
    + simpl. rewrite foldl_setattr_created_at. by apply Hclock.
  - unfold delete_item. destruct (dict_get k db); [|done].
    by apply dict_del_Forall.
Qed.

(* ===================================================================== *)
(** ** Explicit nulls in an update *)
(* ===================================================================== *)

(** For a value that is not null, [ItemUpdate] applies to each field the
    check [ItemCreate] applies to it. *)
Lemma update_checks_as_create_non_null (j : json) :
  j ≠ JNull ->
  (rejected (ItemUpdate_name_field (Some j)) <-> rejected (ItemBase_name (Some j))) ∧
  (rejected (ItemUpdate_description_field (Some j)) <->
     rejected (ItemBase_description (Some j))) ∧
  (rejected (ItemUpdate_price_field (Some j)) <-> rejected (ItemBase_price (Some j))) ∧
  (rejected (ItemUpdate_tax_field (Some j)) <-> rejected (ItemBase_tax (Some j))) ∧
  (rejected (ItemUpdate_tags_field (Some j)) <-> rejected (ItemBase_tags (Some j))).
Proof.
  intros Hj.
  unfold ItemUpdate_name_field, ItemUpdate_description_field,
    ItemUpdate_price_field, ItemUpdate_tax_field, ItemUpdate_tags_field,
    ItemBase_name, ItemBase_description, ItemBase_price, ItemBase_tax,
    ItemBase_tags, Field_optional_set, Field_optional, Field_required,
    Field_default.
  destruct j; try done; repeat split;
    match goal with
    | |- context [match ?v with inl _ => _ | inr _ => _ end] =>
        destruct v; simpl; tauto
    end.
Qed.

(** C2. The registry does not keep every stored item within the [Item]
    schema: after creating the widget, [PUT] with the body [{"name": null}]
    passes validation, answers from the handler, and leaves under the
    widget's id an item whose [name] is [None].  That state is reachable
    from the empty registry. *)
Theorem null_name_update_breaks_schema :
  ∃ it',
    run [POST_items widget_body 0 100%Z;
         PUT_item widget_id null_name_patch 200%Z] [] = [(widget_id, it')] ∧
    serve (PUT_item widget_id null_name_patch 200%Z) widget_db =
      (JSON_item 200 it', [(widget_id, it')]) ∧
    reachable [(widget_id, it')] ∧
    Item_valid widget = true ∧
    Item_name it' = None ∧
    Item_valid it' = false.
Proof.
  eexists. split; [vm_compute; reflexivity|].
  split; [vm_compute; reflexivity|].
  split; [|by vm_compute].
  apply (reachable_run
           [POST_items widget_body 0 100%Z;
            PUT_item widget_id null_name_patch 200%Z] []).
  constructor.
Qed.

(** C3. [Update] does not reject exactly what [Create] rejects field by
    field: a null [name] is accepted in an update body and set on the
    parsed update, while [Create] rejects the same field. *)
Theorem update_accepts_null_create_rejects :
  (∃ u, parse_ItemUpdate null_name_patch = inr u ∧
        ItemUpdate_name u = Some None) ∧
  ItemBase_name (null_name_patch !! "name") = inl type_error_none_not_allowed ∧
  (∃ errs, parse_ItemCreate (<["price" := JNum 1%float]> null_name_patch) = inl errs ∧
           "name" ∈ loc <$> errs).
Proof.
  split; [eexists; split; vm_compute; reflexivity|].
  split; [vm_compute; reflexivity|].
  eexists. split; [vm_compute; reflexivity|].
  apply list_elem_of_here.
Qed.

(* ===================================================================== *)
(** ** Absent ids *)
(* ===================================================================== *)






(* ===================================================================== *)
(** ** [created_at] *)
(* ===================================================================== *)

Lemma serve_PUT_created_at (k item_id : string) (b : body) (now : datetime)
    (db : dict Item) (it : Item) :
  dict_get item_id db = Some it ->
  ∃ it', dict_get item_id (serve (PUT_item k b now) db).2 = Some it' ∧
         Item_created_at it' = Item_created_at it.
Proof.
  intros Hget. destruct (decide (k = item_id)) as [->|Hne].
  - simpl. destruct (parse_ItemUpdate b) as [|u]; [by exists it|].
    unfold update_item. rewrite Hget. simpl. eexists.
    split; [apply dict_get_set_eq|]. simpl. apply foldl_setattr_created_at.
  - exists it. split; [|done]. rewrite serve_other; [done|].
    simpl. congruence.
Qed.

Lemma run_PUT_created_at (updates : list (string * body * datetime))
    (item_id : string) (db : dict Item) (it : Item) :
  dict_get item_id db = Some it ->
  ∃ it', dict_get item_id (run (PUT_of <$> updates) db) = Some it' ∧
         Item_created_at it' = Item_created_at it.
Proof.
  revert db it. induction updates as [|[[k b] now] updates IH]; intros db it Hget.
  - by exists it.
  - simpl. destruct (serve_PUT_created_at k item_id b now db it Hget)
      as (it1 & Hget1 & Hc1).
    destruct (IH _ it1 Hget1) as (it' & Hget' & Hc').
    exists it'. split; [exact Hget' | congruence].
Qed.

(** C7. Whatever updates follow, accepted or rejected, on this id or on
    others, the item stored under an id is still there and has the
    [created_at] it had before them; for an item just created that is the
    time of its creation. *)
Theorem created_at_never_changes (updates : list (string * body * datetime))
    (db : dict Item) :
  (∀ item_id it,
     dict_get item_id db = Some it ->
     ∃ it', dict_get item_id (run (PUT_of <$> updates) db) = Some it' ∧
            Item_created_at it' = Item_created_at it) ∧
  (∀ b random now it db1,
     serve (POST_items b random now) db = (JSON_item 201 it, db1) ->
     ∃ it', dict_get (Item_id it) (run (PUT_of <$> updates) db1) = Some it' ∧
            Item_created_at it' = now).
Proof.
  split.
  - intros item_id it. apply run_PUT_created_at.
  - intros b random now it db1 Hs. simpl in Hs.
    destruct (parse_ItemCreate b) as [|item]; [done|].
    unfold create_item in Hs. injection Hs as <- <-. simpl.
    edestruct run_PUT_created_at as (it' & Hget & Hc);
      [apply dict_get_set_eq|].
    exists it'. split; [exact Hget|]. by rewrite Hc.
Qed.

Lemma created_at_never_changes_witness :
  dict_get widget_id widget_db = Some widget ∧
  ∃ it',
    dict_get widget_id
      (run (PUT_of <$> [(widget_id, price_patch, 200%Z);
                        (widget_id, bad_price_patch, 300%Z);
                        (widget_id, null_name_patch, 400%Z)]) widget_db) = Some it' ∧
    Item_created_at it' = 100%Z.
Proof.
  assert (H0 : dict_get widget_id widget_db = Some widget) by reflexivity.
  split; [exact H0|].
  destruct (created_at_never_changes
              [(widget_id, price_patch, 200%Z);
               (widget_id, bad_price_patch, 300%Z);
               (widget_id, null_name_patch, 400%Z)] widget_db) as [H _].
  apply (H widget_id widget H0).
Defined.

(* ===================================================================== *)
(** ** List *)
(* ===================================================================== *)

Lemma registry_wf_tail (e : string * Item) (db : dict Item) :
  registry_wf (e :: db) -> registry_wf db.
Proof.
  intros [Hnd Hall]. unfold dict_keys in Hnd. simpl in Hnd.
  apply NoDup_cons in Hnd as [_ Hnd]. apply Forall_cons in Hall as [_ Hall].
  by split.
Qed.

Lemma filter_other_ids (k : string) (db : dict Item) :
  registry_wf db -> k ∉ dict_keys db ->
  filter (λ it, Item_id it ≠ k) (dict_values db) = dict_values db.
Proof.
  unfold dict_keys, dict_values.
  induction db as [|[k' it'] db IH]; intros Hwf Hk; [done|].
  simpl in *. apply not_elem_of_cons in Hk as [Hne Hk].
  assert (Hid : Item_id it' = k').
  { destruct Hwf as [_ Hall]. by apply Forall_cons in Hall as [Hid _]. }
  rewrite filter_cons_True by congruence.
  f_equal. apply IH; [by eapply registry_wf_tail | done].
Qed.

(** Deleting a key takes its item out of the listing and keeps the others
    in their order. *)
Lemma dict_values_del (k : string) (db : dict Item) :
  registry_wf db ->
  dict_values (dict_del k db) = filter (λ it, Item_id it ≠ k) (dict_values db).
Proof.
  unfold dict_values.
  induction db as [|[k' it'] db IH]; intros Hwf; [done|].
  assert (Hid : Item_id it' = k').
  { destruct Hwf as [_ Hall]. by apply Forall_cons in Hall as [Hid _]. }
  assert (Htail : registry_wf db) by by eapply registry_wf_tail.
  simpl. destruct (decide (k = k')) as [->|Hne].
  - rewrite filter_cons_False by (simpl; intros H; by apply H).
    symmetry. apply filter_other_ids; [done|].
    destruct Hwf as [Hnd _]. unfold dict_keys in Hnd. simpl in Hnd.
    by apply NoDup_cons in Hnd as [Hk _].
  - rewrite filter_cons_True by (simpl; congruence).
    simpl. f_equal. by apply IH.
Qed.

(** An update keeps every key in its place. *)
Lemma serve_PUT_keys (k : string) (b : body) (now : datetime) (db : dict Item) :
  dict_keys (serve (PUT_item k b now) db).2 = dict_keys db.
Proof.
  simpl. destruct (parse_ItemUpdate b); [done|]. unfold update_item.
  destruct (dict_get k db) eqn:E; [|done]. simpl.
  apply dict_keys_set_present. by rewrite E.
Qed.

Lemma dict_values_set_fresh (k : string) (it : Item) (db : dict Item) :
  dict_get k db = None -> dict_values (dict_set k it db) = dict_values db ++ [it].
Proof.
  intros H. rewrite dict_set_fresh by done. unfold dict_values.
  by rewrite fmap_app.
Qed.

(** C8. In every state of the service [GET /items] answers 200 and leaves
    the registry as it was; the items returned carry pairwise distinct ids
    and are exactly the stored ones, each under its id; their order is that
    of insertion: a created item with a new id comes last, an update keeps
    every id in its place, a delete takes one item out and keeps the others
    in order. *)
Theorem read_items_lists_registry (db : dict Item) :
  reachable db ->
  serve GET_items db = (JSON_items 200 (dict_values db), db) ∧
  NoDup (Item_id <$> dict_values db) ∧
  length (dict_values db) = length (dict_keys db) ∧
  (∀ k it, dict_get k db = Some it <-> it ∈ dict_values db ∧ Item_id it = k) ∧
  (∀ b random now it db',
     serve (POST_items b random now) db = (JSON_item 201 it, db') ->
     dict_get (Item_id it) db = None ->
     dict_values db' = dict_values db ++ [it]) ∧
  (∀ k b now,
     Item_id <$> dict_values (serve (PUT_item k b now) db).2 =
     Item_id <$> dict_values db) ∧
  (∀ k,
     dict_values (serve (DELETE_item k) db).2 =
     filter (λ it, Item_id it ≠ k) (dict_values db)).
Proof.
  intros Hreach. apply reachable_wf in Hreach as Hwf.
  split; [done|].
  split. { rewrite dict_values_ids by done. apply Hwf. }
  split. { unfold dict_values, dict_keys. by rewrite !length_fmap. }
  split.
  { intros k it. split.
    - intros Hget. split; [|by eapply registry_wf_get].
      unfold dict_values. apply list_elem_of_fmap. exists (k, it).
      split; [done | by apply dict_get_elem_of].
    - intros [Hin <-]. by apply dict_values_elem_of. }
  split.
  { intros b random now it db' Hs Hfresh. simpl in Hs.
    destruct (parse_ItemCreate b); [done|].
    unfold create_item in Hs. injection Hs as <- <-.
    by apply dict_values_set_fresh. }
  split.
  { intros k b now.
    rewrite !dict_values_ids; [apply serve_PUT_keys | done | by apply serve_wf]. }
  intros k. simpl. unfold delete_item.
  destruct (dict_get k db) eqn:E; simpl.
  - by apply dict_values_del.
  - symmetry. apply filter_other_ids; [done | by apply dict_get_None].
Qed.

Lemma read_items_lists_registry_witness :
  reachable widget_db ∧
  serve GET_items widget_db = (JSON_items 200 [widget], widget_db).
Proof.
  split; [apply reachable_widget_db|].
  apply (read_items_lists_registry widget_db reachable_widget_db).
Defined.

(* ===================================================================== *)
(** ** Frame *)
(* ===================================================================== *)

(** C9. A request changes nothing stored under a key other than the one it
    works on: the generated id for a create, the path id for an update or
    a delete.  A create leaves the keys as they were or adds its one key at
    the end. *)
Theorem serve_frame (req : request) (db : dict Item) :
  (∀ k, touched req ≠ Some k -> dict_get k (serve req db).2 = dict_get k db) ∧
  (∀ b random now,
     req = POST_items b random now ->
     dict_keys (serve req db).2 = dict_keys db ∨
     dict_keys (serve req db).2 = dict_keys db ++ [UUID.str (UUID.uuid4 random)]).
Proof.
  split.
  - intros k. apply serve_other.
  - intros b random now ->. simpl.
    destruct (parse_ItemCreate b); [by left|]. simpl.
    rewrite dict_keys_set. destruct (dict_get _ db); [by left | by right].
Qed.

Lemma serve_frame_witness :
  touched (DELETE_item "other") ≠ Some widget_id ∧
  dict_get widget_id (serve (DELETE_item "other") (dict_set "other" widget widget_db)).2 =
    Some widget.
Proof.
  assert (H0 : touched (DELETE_item "other") ≠ Some widget_id) by done.
  split; [exact H0|].
  destruct (serve_frame (DELETE_item "other") (dict_set "other" widget widget_db))
    as [H _].
  rewrite (H widget_id H0). reflexivity.
Defined.

(* ===================================================================== *)
(** ** What a body cannot reach *)
(* ===================================================================== *)

Lemma parse_ItemCreate_ext (b b' : body) :
  (∀ f, f ∈ ItemBase_fields -> b !! f = b' !! f) ->
  parse_ItemCreate b = parse_ItemCreate b'.
Proof.
  intros H. unfold parse_ItemCreate.
  rewrite !H; [done | | | | |]; unfold ItemBase_fields; set_solver.
Qed.

Lemma parse_ItemUpdate_ext (b b' : body) :
  (∀ f, f ∈ ItemBase_fields -> b !! f = b' !! f) ->
  parse_ItemUpdate b = parse_ItemUpdate b'.
Proof.
  intros H. unfold parse_ItemUpdate.
  rewrite !H; [done | | | | |]; unfold ItemBase_fields; set_solver.
Qed.

(** C10. Two bodies that agree at name, description, price, tax and tags
    are answered alike and leave the same registry, whatever else they
    hold: [id], [created_at], [updated_at] or any other key.  The created
    item carries the generated id and the current time twice; the updated
    item keeps its id and [created_at] and carries the current time as
    [updated_at]. *)
Theorem body_cannot_set_service_fields (b b' : body) (item_id : string)
    (random : N) (now : datetime) (db : dict Item) :
  (∀ f, f ∈ ItemBase_fields -> b !! f = b' !! f) ->
  serve (POST_items b random now) db = serve (POST_items b' random now) db ∧
  serve (PUT_item item_id b now) db = serve (PUT_item item_id b' now) db ∧
  (∀ it db',
     serve (POST_items b' random now) db = (JSON_item 201 it, db') ->
     dict_get (Item_id it) db' = Some it ∧
     Item_id it = UUID.str (UUID.uuid4 random) ∧
     Item_created_at it = now ∧
     Item_updated_at it = now) ∧
  (∀ it0 it db',
     dict_get item_id db = Some it0 ->
     serve (PUT_item item_id b' now) db = (JSON_item 200 it, db') ->
     dict_get item_id db' = Some it ∧
     Item_id it = Item_id it0 ∧
     Item_created_at it = Item_created_at it0 ∧
     Item_updated_at it = now).
Proof.
  intros Hagree. simpl.
  rewrite (parse_ItemCreate_ext b b' Hagree), (parse_ItemUpdate_ext b b' Hagree).
  split; [done|]. split; [done|]. split.
  - intros it db' Hs. destruct (parse_ItemCreate b'); [done|].
    unfold create_item in Hs. injection Hs as <- <-. simpl.
    split; [apply dict_get_set_eq | done].
  - intros it0 it db' Hget Hs. destruct (parse_ItemUpdate b'); [done|].
    unfold update_item in Hs. rewrite Hget in Hs. injection Hs as <- <-.
    simpl. split; [apply dict_get_set_eq|].
    split; [apply foldl_setattr_id|].
    split; [apply foldl_setattr_created_at | done].
Qed.

Lemma body_cannot_set_service_fields_witness :
  (∀ f, f ∈ ItemBase_fields -> widget_body !! f = forged_body !! f) ∧
  serve (POST_items forged_body 0 100%Z) [] = (JSON_item 201 widget, widget_db).
Proof.
  assert (H0 : ∀ f, f ∈ ItemBase_fields -> widget_body !! f = forged_body !! f).
  { intros f Hf. unfold ItemBase_fields in Hf.
    repeat (apply elem_of_cons in Hf as [->|Hf]; [vm_compute; reflexivity|]).
    by apply elem_of_nil in Hf. }
  split; [exact H0|].
  destruct (body_cannot_set_service_fields widget_body forged_body widget_id
              0 100%Z [] H0) as (H & _).
  rewrite <- H. apply create_widget.
Defined.

(* ===================================================================== *)
(** ** Round trips *)
(* ===================================================================== *)

Lemma dict_del_set_fresh {V} (k : string) (v : V) (d : dict V) :
  dict_get k d = None -> dict_del k (dict_set k v d) = d.
Proof.
  induction d as [|[k' v'] d IH]; simpl.
  - by rewrite decide_True.
  - destruct (decide (k = k')) as [->|Hne]; [done|]. intros H. simpl.
    rewrite decide_False by done. by rewrite IH.
Qed.

Lemma dict_set_set {V} (k : string) (v v' : V) (d : dict V) :
  dict_set k v (dict_set k v' d) = dict_set k v d.
Proof.
  induction d as [|[k0 v0] d IH]; simpl.
  - by rewrite decide_True.
  - destruct (decide (k = k0)) as [->|Hne]; simpl.
    + by rewrite decide_True.
    + rewrite decide_False by done. by rewrite IH.
Qed.

Lemma dict_set_length_present {V} (k : string) (v : V) (d : dict V) :
  is_Some (dict_get k d) -> length (dict_set k v d) = length d.
Proof.
  induction d as [|[k' v'] d IH]; simpl.
  - by intros [? ?].
  - destruct (decide (k = k')); simpl; [done|]. intros H. by rewrite IH.
Qed.

Lemma dict_del_length_present {V} (k : string) (d : dict V) :
  is_Some (dict_get k d) -> S (length (dict_del k d)) = length d.
Proof.
  induction d as [|[k' v'] d IH]; simpl.
  - by intros [? ?].
  - destruct (decide (k = k')); simpl; [done|]. intros H. by rewrite IH.
Qed.

(** X1. What [POST /items] returns can be read back: after a create
    answered 201 with an item, [GET /items/{id}] for that item's id answers
    200 with the same item and changes nothing, and [GET /items] lists
    it. *)
Theorem create_then_get (b : body) (random : N) (now : datetime)
    (db db' : dict Item) (it : Item) :
  serve (POST_items b random now) db = (JSON_item 201 it, db') ->
  serve (GET_item (Item_id it)) db' = (JSON_item 200 it, db') ∧
  ∃ l, serve GET_items db' = (JSON_items 200 l, db') ∧ it ∈ l.
Proof.
  simpl. destruct (parse_ItemCreate b) as [|item]; [done|].
  unfold create_item. intros [= <- <-]. simpl.
  unfold read_item, read_items. rewrite dict_get_set_eq.
  split; [done|]. eexists. split; [reflexivity|].
  unfold dict_values. apply list_elem_of_fmap.
  eexists (_, _). split; [reflexivity|].
  apply dict_get_elem_of, dict_get_set_eq.
Qed.

Lemma create_then_get_witness :
  serve (POST_items widget_body 0 100%Z) [] = (JSON_item 201 widget, widget_db) ∧
  serve (GET_item widget_id) widget_db = (JSON_item 200 widget, widget_db).
Proof.
  split; [apply create_widget|].
  apply (create_then_get widget_body 0 100%Z [] widget_db widget create_widget).
Defined.

(** X2. Deleting what was just created undoes the create: when a valid
    body is posted and the generated id is not yet a key, [DELETE] of the
    returned id answers 204 and leaves the registry exactly as it was
    before the create. *)
Theorem create_then_delete_restores (b : body) (random : N) (now : datetime)
    (db db' : dict Item) (it : Item) :
  dict_get (UUID.str (UUID.uuid4 random)) db = None ->
  serve (POST_items b random now) db = (JSON_item 201 it, db') ->
  serve (DELETE_item (Item_id it)) db' = (No_content 204, db).
Proof.
  intros Hfresh. simpl. destruct (parse_ItemCreate b) as [|item]; [done|].
  unfold create_item. intros [= <- <-]. simpl.
  unfold delete_item. rewrite dict_get_set_eq.
  by rewrite dict_del_set_fresh.
Qed.

Lemma create_then_delete_restores_witness :
  @dict_get Item (UUID.str (UUID.uuid4 0)) [] = None ∧
  serve (POST_items widget_body 0 100%Z) [] = (JSON_item 201 widget, widget_db) ∧
  serve (DELETE_item widget_id) widget_db = (No_content 204, []).
Proof.
  split; [reflexivity|]. split; [apply create_widget|].
  apply (create_then_delete_restores widget_body 0 100%Z [] widget_db widget
           eq_refl create_widget).
Defined.

(* ===================================================================== *)
(** ** Updates compose *)
(* ===================================================================== *)

Lemma merge_twice (u : ItemUpdate) (it : Item) (t : datetime) :
  set_updated_at
    (foldl setattr (set_updated_at (foldl setattr it (dict_exclude_unset u)) t)
       (dict_exclude_unset u)) t =
  set_updated_at (foldl setattr it (dict_exclude_unset u)) t.
Proof.
  destruct u as [[n|] [d|] [p|] [x|] [g|]]; destruct it; reflexivity.
Qed.

(** X3. An update is idempotent: sending the same [PUT] again, with the
    same body and clock reading, gives the same answer and leaves the
    registry as the first one left it, whether the first was accepted,
    rejected or answered 404. *)
Theorem update_idempotent (item_id : string) (b : body) (now : datetime)
    (db : dict Item) :
  serve (PUT_item item_id b now) (serve (PUT_item item_id b now) db).2 =
  serve (PUT_item item_id b now) db.
Proof.
  simpl. destruct (parse_ItemUpdate b) as [errs|u]; [done|].
  unfold update_item. destruct (dict_get item_id db) as [it|] eqn:E; simpl.
  - rewrite dict_get_set_eq, dict_set_set, merge_twice. done.
  - by rewrite E.
Qed.

(** X4. An update whose body has none of the five fields only refreshes
    [updated_at]: the stored item is returned with the current time as
    [updated_at] and every other attribute as it was. *)
Theorem update_empty_body_touches (item_id : string) (b : body)
    (now : datetime) (db : dict Item) (it : Item) :
  (∀ f, f ∈ ItemBase_fields -> b !! f = None) ->
  dict_get item_id db = Some it ->
  serve (PUT_item item_id b now) db =
    (JSON_item 200 (set_updated_at it now),
     dict_set item_id (set_updated_at it now) db).
Proof.
  intros Hnone Hget. simpl. unfold parse_ItemUpdate.
  rewrite !Hnone by (unfold ItemBase_fields; set_solver).
  simpl. unfold update_item. by rewrite Hget.
Qed.

Lemma update_empty_body_touches_witness :
  (∀ f, f ∈ ItemBase_fields -> unknown_only_body !! f = None) ∧
  dict_get widget_id widget_db = Some widget ∧
  serve (PUT_item widget_id unknown_only_body 200%Z) widget_db =
    (JSON_item 200 (set_updated_at widget 200%Z),
     [(widget_id, set_updated_at widget 200%Z)]).
Proof.
  assert (H0 : ∀ f, f ∈ ItemBase_fields -> unknown_only_body !! f = None).
  { intros f Hf. unfold ItemBase_fields in Hf.
    repeat (apply elem_of_cons in Hf as [->|Hf]; [vm_compute; reflexivity|]).
    by apply elem_of_nil in Hf. }
  split; [exact H0|]. split; [reflexivity|].
  apply (update_empty_body_touches widget_id unknown_only_body 200%Z
           widget_db widget H0 eq_refl).
Defined.

(* ===================================================================== *)
(** ** Failures and sizes *)
(* ===================================================================== *)

(** X5. A request that is answered with an error (404 or 422) leaves the
    registry exactly as it was, and so does every read ([GET /items],
    [GET /items/{id}]) whatever its answer. *)
Theorem failed_request_changes_nothing (req : request) (db : dict Item) :
  (is_error (serve req db).1 = true -> (serve req db).2 = db) ∧
  (req = GET_items ∨ (∃ item_id, req = GET_item item_id) -> (serve req db).2 = db).
Proof.
  split.
  - destruct req as [|k|b r t|k b t|k]; simpl.
    + done.
    + unfold read_item. by destruct (dict_get k db).
    + by destruct (parse_ItemCreate b).
    + destruct (parse_ItemUpdate b); [done|]. unfold update_item.
      by destruct (dict_get k db).
    + unfold delete_item. by destruct (dict_get k db).
  - intros [->|[k ->]]; simpl; [done|].
    unfold read_item. by destruct (dict_get k db).
Qed.

Lemma failed_request_changes_nothing_witness :
  is_error (serve (PUT_item widget_id bad_price_patch 200%Z) widget_db).1 = true ∧
  (serve (PUT_item widget_id bad_price_patch 200%Z) widget_db).2 = widget_db.
Proof.
  assert (H0 : is_error (serve (PUT_item widget_id bad_price_patch 200%Z)
                           widget_db).1 = true) by (vm_compute; reflexivity).
  split; [exact H0|].
  destruct (failed_request_changes_nothing
              (PUT_item widget_id bad_price_patch 200%Z) widget_db) as [H _].
  exact (H H0).
Defined.

(** X7. A create whose generated id is already a key replaces the stored
    item: it answers 201, the new item sits under the id at the old item's
    place, the keys and the number of items are unchanged, and the old
    item's [created_at] is gone with it. *)
Theorem create_collision_overwrites (b : body) (item : ItemCreate)
    (random : N) (now : datetime) (db : dict Item) (old : Item) :
  parse_ItemCreate b = inr item ->
  dict_get (UUID.str (UUID.uuid4 random)) db = Some old ->
  ∃ it db',
    serve (POST_items b random now) db = (JSON_item 201 it, db') ∧
    Item_id it = UUID.str (UUID.uuid4 random) ∧
    dict_get (Item_id it) db' = Some it ∧
    Item_created_at it = now ∧
    Item_name it = Some (ItemCreate_name item) ∧
    dict_keys db' = dict_keys db ∧
    length db' = length db.
Proof.
  intros Hparse Hold. simpl. rewrite Hparse. unfold create_item.
  eexists _, _. split; [reflexivity|]. simpl.
  split; [done|]. split; [apply dict_get_set_eq|].
  split; [done|]. split; [done|].
  split; [apply dict_keys_set_present | apply dict_set_length_present];
    by rewrite Hold.
Qed.

Lemma create_collision_overwrites_witness :
  (∃ item, parse_ItemCreate cent_body = inr item) ∧
  dict_get (UUID.str (UUID.uuid4 0)) widget_db = Some widget ∧
  ∃ it db',
    serve (POST_items cent_body 0 300%Z) widget_db = (JSON_item 201 it, db') ∧
    dict_get widget_id db' = Some it ∧
    Item_created_at it = 300%Z ∧
    length db' = 1.
Proof.
  assert (H1 : parse_ItemCreate cent_body =
               inr {| ItemCreate_name := "Widget"; ItemCreate_description := None;
                      ItemCreate_price := 0.01%float; ItemCreate_tax := None;
                      ItemCreate_tags := [] |})
    by (vm_compute; reflexivity).
  assert (H2 : dict_get (UUID.str (UUID.uuid4 0)) widget_db = Some widget)
    by (vm_compute; reflexivity).
  split; [by eexists|]. split; [exact H2|].
  destruct (create_collision_overwrites cent_body _ 0 300%Z widget_db widget H1 H2)
    as (it & db' & Hs & Hid & Hget & Hc & _ & _ & Hlen).
  exists it, db'. split; [exact Hs|].
  split; [by rewrite Hid in Hget|]. split; [exact Hc | exact Hlen].
Defined.

Lemma dict_set_length_fresh {V} (k : string) (v : V) (d : dict V) :
  dict_get k d = None -> length (dict_set k v d) = S (length d).
Proof.
  intros H. rewrite dict_set_fresh by done. rewrite length_app. simpl. lia.
Qed.

(** X8. How the number of stored items moves: a create with a valid body
    adds one when its id is new and none when the id is already a key; a
    delete of a stored id takes one away; every other request (reads,
    updates, rejected or unanswerable requests) leaves the number as it
    was. *)
Theorem registry_size (req : request) (db : dict Item) :
  match req with
  | POST_items b random _ =>
      match parse_ItemCreate b, dict_get (UUID.str (UUID.uuid4 random)) db with
      | inr _, None => length (serve req db).2 = S (length db)
      | _, _ => length (serve req db).2 = length db
      end
  | DELETE_item item_id =>
      match dict_get item_id db with
      | Some _ => S (length (serve req db).2) = length db
      | None => length (serve req db).2 = length db
      end
  | _ => length (serve req db).2 = length db
  end.
Proof.
  destruct req as [|k|b r t|k b t|k]; simpl.
  - done.
  - unfold read_item. by destruct (dict_get k db).
  - destruct (parse_ItemCreate b) as [|item]; simpl.
    + by destruct (dict_get (UUID.str (UUID.uuid4 r)) db).
    + destruct (dict_get (UUID.str (UUID.uuid4 r)) db) eqn:E.
      * apply dict_set_length_present. by rewrite E.
      * by apply dict_set_length_fresh.
  - destruct (parse_ItemUpdate b); [done|]. unfold update_item.
    destruct (dict_get k db) eqn:E; [|done]. simpl.
    apply dict_set_length_present. by rewrite E.
  - unfold delete_item. destruct (dict_get k db) eqn:E; simpl; [|done].
    apply dict_del_length_present. by rewrite E.
Qed.

(* ===================================================================== *)
(** ** More on validation *)
(* ===================================================================== *)

(** X10. A create body without a name or without a price is answered 422:
    the errors report the absent field as missing, one entry for each when
    both are absent, and the registry is unchanged. *)
Theorem create_missing_required (b : body) (random : N) (now : datetime)
    (db : dict Item) :
  b !! "name" = None ∨ b !! "price" = None ->
  ∃ errs,
    serve (POST_items b random now) db = (Validation_error 422 errs, db) ∧
    (b !! "name" = None ->
       {| loc := "name"; kind := value_error_missing |} ∈ errs) ∧
    (b !! "price" = None ->
       {| loc := "price"; kind := value_error_missing |} ∈ errs).
Proof.
  intros Hmiss.
  destruct (parse_ItemCreate_rejects b) as [errs He].
  { destruct Hmiss as [H|H]; rewrite H; simpl; tauto. }
  simpl. rewrite He. exists errs. split; [done|].
  rewrite (parse_ItemCreate_errors b errs He).
  split; intros H; rewrite H; simpl.
  - apply list_elem_of_here.
  - rewrite !elem_of_app. right. right. apply list_elem_of_here.
Qed.

Lemma create_missing_required_witness :
  (∅ : body) !! "name" = None ∧
  serve (POST_items ∅ 0 100%Z) widget_db =
    (Validation_error 422
       [ {| loc := "name"; kind := value_error_missing |};
         {| loc := "price"; kind := value_error_missing |} ],
     widget_db).
Proof.
  assert (H0 : (∅ : body) !! "name" = None) by reflexivity.
  split; [exact H0|].
  destruct (create_missing_required ∅ 0 100%Z widget_db (or_introl H0))
    as (errs & Hs & _).
  rewrite Hs. vm_compute in Hs. by injection Hs as <-.
Defined.

(** X11. In a create body a null description, or a null tax, is the same
    as none: the answer and the registry are those of the body without the
    key. *)
Theorem create_null_optional_as_absent (b : body) (random : N)
    (now : datetime) (db : dict Item) :
  (b !! "description" = Some JNull ->
   serve (POST_items (delete "description" b) random now) db =
   serve (POST_items b random now) db) ∧
  (b !! "tax" = Some JNull ->
   serve (POST_items (delete "tax" b) random now) db =
   serve (POST_items b random now) db).
Proof.
  split; intros Hnull; simpl; unfold parse_ItemCreate;
    rewrite lookup_delete_eq, !lookup_delete_ne by done; by rewrite Hnull.
Qed.

Lemma create_null_optional_as_absent_witness :
  null_optional_body !! "description" = Some JNull ∧
  serve (POST_items (delete "description" null_optional_body) 0 100%Z) [] =
  serve (POST_items null_optional_body 0 100%Z) [].
Proof.
  assert (H0 : null_optional_body !! "description" = Some JNull)
    by (vm_compute; reflexivity).
  split; [exact H0|].
  apply (create_null_optional_as_absent null_optional_body 0 100%Z []), H0.
Defined.

(** X12. In an update body a null description, or a null tax, clears the
    attribute: the item returned and stored has [None] there, where an
    absent key would have kept the old value. *)
Theorem update_null_clears_optional (item_id : string) (b : body)
    (u : ItemUpdate) (now : datetime) (db : dict Item) (it : Item) :
  dict_get item_id db = Some it ->
  parse_ItemUpdate b = inr u ->
  ∃ it' db',
    serve (PUT_item item_id b now) db = (JSON_item 200 it', db') ∧
    dict_get item_id db' = Some it' ∧
    (b !! "description" = Some JNull -> Item_description it' = None) ∧
    (b !! "tax" = Some JNull -> Item_tax it' = None).
Proof.
  intros Hget Hparse.
  destruct (parse_ItemUpdate_fields b u Hparse) as (_ & Hd & _ & Ht & _).
  destruct (merge_fields u it) as (_ & Md & _ & Mt & _).
  simpl. rewrite Hparse. unfold update_item. rewrite Hget.
  eexists _, _. split; [reflexivity|]. split; [apply dict_get_set_eq|].
  simpl. split; intros E.
  - rewrite E in Hd. injection Hd as Hd. by rewrite Md, <- Hd.
  - rewrite E in Ht. injection Ht as Ht. by rewrite Mt, <- Ht.
Qed.

Lemma update_null_clears_optional_witness :
  dict_get widget_id [(widget_id, taxed_widget)] = Some taxed_widget ∧
  (∃ u, parse_ItemUpdate clearing_patch = inr u) ∧
  ∃ it',
    (serve (PUT_item widget_id clearing_patch 200%Z)
       [(widget_id, taxed_widget)]).1 = JSON_item 200 it' ∧
    Item_description it' = None ∧ Item_tax it' = None.
Proof.
  assert (H1 : dict_get widget_id [(widget_id, taxed_widget)] = Some taxed_widget)
    by reflexivity.
  assert (H2 : parse_ItemUpdate clearing_patch =
               inr {| ItemUpdate_name := None;
                      ItemUpdate_description := Some None;
                      ItemUpdate_price := None; ItemUpdate_tax := Some None;
                      ItemUpdate_tags := None |})
    by (vm_compute; reflexivity).
  split; [exact H1|]. split; [by eexists|].
  destruct (update_null_clears_optional widget_id clearing_patch _ 200%Z
              _ taxed_widget H1 H2) as (it' & db' & Hs & _ & Hd & Ht).
  exists it'. rewrite Hs. split; [reflexivity|].
  split; [apply Hd | apply Ht]; vm_compute; reflexivity.
Defined.

(* ===================================================================== *)
(** ** Sequences of requests *)
(* ===================================================================== *)

(** X13. From a registry whose items are within the [Item] schema with
    [created_at <= updated_at], any sequence of requests keeps every stored
    item so, provided no update in it gives null to name, price or tags
    and no update carries a clock reading before the creation time of the
    item it updates. *)
Theorem run_keeps_schema (reqs : list request) (db : dict Item) :
  Forall (λ e, Item_ok e.2) db ->
  all_well_behaved reqs db ->
  Forall (λ e, Item_ok e.2) (run reqs db).
Proof.
  revert db. induction reqs as [|req reqs IH]; intros db Hall Hreqs; [done|].
  destruct Hreqs as [Hreq Hreqs]. simpl. apply IH; [|done].
  by apply serve_keeps_schema.
Qed.

Lemma run_keeps_schema_witness :
  all_well_behaved
    [POST_items widget_body 0 100%Z; PUT_item widget_id price_patch 200%Z;
     PUT_item widget_id bad_price_patch 300%Z; GET_items] [] ∧
  Forall (λ e, Item_ok e.2)
    (run [POST_items widget_body 0 100%Z; PUT_item widget_id price_patch 200%Z;
          PUT_item widget_id bad_price_patch 300%Z; GET_items] []).
Proof.
  assert (H0 : all_well_behaved
                 [POST_items widget_body 0 100%Z;
                  PUT_item widget_id price_patch 200%Z;
                  PUT_item widget_id bad_price_patch 300%Z; GET_items] []).
  { split; [done|]. split; [|split; [|done]].
    - split.
      + intros [H|[H|H]]; vm_compute in H; discriminate.
      + intros it H. vm_compute in H. inversion H; subst it.
        vm_compute. discriminate.
    - split.
      + intros [H|[H|H]]; vm_compute in H; discriminate.
      + intros it H. vm_compute in H. inversion H; subst it.
        vm_compute. discriminate. }
  split; [exact H0|].
  apply (run_keeps_schema _ [] (Forall_nil_2 _) H0).
Defined.

Lemma serve_keys_sublist (req : request) (db : dict Item) :
  is_POST req = false -> dict_keys (serve req db).2 `sublist_of` dict_keys db.
Proof.
  destruct req as [|k|b r t|k b t|k]; intros H.
  - done.
  - simpl. unfold read_item. by destruct (dict_get k db).
  - done.
  - by rewrite serve_PUT_keys.
  - simpl. unfold delete_item. destruct (dict_get k db); [|done].
    apply dict_del_keys_sublist.
Qed.

(** X14. Only a create adds an id: over any sequence of reads, updates and
    deletes the keys of the registry are a subsequence of the keys it
    started with (same order, some removed), so an id that is absent, never
    stored or deleted, stays absent; an update never inserts. *)
Theorem no_create_no_new_ids (reqs : list request) (db : dict Item) :
  Forall (λ req, is_POST req = false) reqs ->
  dict_keys (run reqs db) `sublist_of` dict_keys db ∧
  ∀ item_id, dict_get item_id db = None -> dict_get item_id (run reqs db) = None.
Proof.
  intros Hreqs.
  assert (Hsub : dict_keys (run reqs db) `sublist_of` dict_keys db).
  { revert db. induction Hreqs as [|req reqs Hreq _ IH]; intros db; [done|].
    simpl. etrans; [apply IH | by apply serve_keys_sublist]. }
  split; [exact Hsub|].
  intros k. rewrite !dict_get_None. intros Hk Hin.
  by apply Hk, (sublist_subseteq _ _ Hsub).
Qed.

Lemma no_create_no_new_ids_witness :
  Forall (λ req, is_POST req = false)
    [DELETE_item widget_id; PUT_item widget_id price_patch 200%Z;
     GET_item widget_id] ∧
  dict_keys (run [DELETE_item widget_id; PUT_item widget_id price_patch 200%Z;
                  GET_item widget_id] widget_db) `sublist_of` [widget_id].
Proof.
  assert (H0 : Forall (λ req, is_POST req = false)
                 [DELETE_item widget_id; PUT_item widget_id price_patch 200%Z;
                  GET_item widget_id]) by (repeat constructor).
  split; [exact H0|].
  apply (no_create_no_new_ids _ widget_db H0).
Defined.

(** X15. The entries under a key no request of a sequence works on are the
    same after the sequence as before it. *)
Theorem run_frame (reqs : list request) (db : dict Item) (k : string) :
  Forall (λ req, touched req ≠ Some k) reqs ->
  dict_get k (run reqs db) = dict_get k db.
Proof.
  intros Hreqs. revert db.
  induction Hreqs as [|req reqs Hreq _ IH]; intros db; [done|].
  simpl. rewrite IH. by apply serve_other.
Qed.

Lemma run_frame_witness :
  Forall (λ req, touched req ≠ Some widget_id)
    [DELETE_item "other"; PUT_item "other" price_patch 200%Z; GET_items] ∧
  dict_get widget_id
    (run [DELETE_item "other"; PUT_item "other" price_patch 200%Z; GET_items]
       widget_db) = Some widget.
Proof.
  assert (H0 : Forall (λ req, touched req ≠ Some widget_id)
                 [DELETE_item "other"; PUT_item "other" price_patch 200%Z;
                  GET_items]) by (repeat constructor; done).
  split; [exact H0|].
  rewrite (run_frame _ widget_db widget_id H0). reflexivity.
Defined.

(* ===================================================================== *)
(** ** The shape of generated ids *)
(* ===================================================================== *)

Lemma hex_of_version_bits (n : N) :
  (N.land (N.shiftr n 76) 15 = 4)%N ->
  UUID.hex_digit
    ((n / 16 / 16 / 16 / 16 / 16 / 16 / 16 / 16 / 16 / 16 / 16 / 16 / 16 / 16 /
        16 / 16 / 16 / 16 / 16) mod 16)%N = "4"%char.
Proof.
  intros H.
  replace ((n / 16 / 16 / 16 / 16 / 16 / 16 / 16 / 16 / 16 / 16 / 16 / 16 / 16 /
              16 / 16 / 16 / 16 / 16 / 16) mod 16)%N
    with (N.land (N.shiftr n 76) 15); [by rewrite H|].
  change 15%N with (N.ones 4). rewrite N.land_ones, N.shiftr_div_pow2.
  rewrite !N.Div0.div_div. reflexivity.
Qed.

Lemma uuid4_version_bits (random : N) :
  (N.land (N.shiftr (UUID.uuid4 random) 76) 15 = 4)%N.
Proof.
  unfold UUID.uuid4. apply N.bits_inj. intros i.
  rewrite N.land_spec, N.shiftr_spec', N.lor_spec, N.ldiff_spec.
  destruct (N.lt_ge_cases i 4) as [Hlt|Hge].
  - assert (Hi : i = 0%N ∨ i = 1%N ∨ i = 2%N ∨ i = 3%N) by lia.
    destruct Hi as [-> | [-> | [-> | ->]]];
      change (N.testbit (N.shiftl 61440 64) _) with true;
      rewrite Bool.andb_false_r; reflexivity.
  - rewrite (N.bits_above_log2 15 i) by (change (N.log2 15) with 3%N; lia).
    rewrite (N.bits_above_log2 4 i) by (change (N.log2 4) with 2%N; lia).
    apply Bool.andb_false_r.
Qed.

(** X16. Every generated id is a string of 36 characters with a dash at
    positions 8, 13, 18 and 23 and the version digit 4 at position 14:
    the form 8-4-4-4-12 of a version 4 UUID. *)
Theorem generated_id_format (random : N) :
  let item_id := UUID.str (UUID.uuid4 random) in
  String.length item_id = 36 ∧
  char_at item_id 8 = Some "-"%char ∧
  char_at item_id 13 = Some "-"%char ∧
  char_at item_id 18 = Some "-"%char ∧
  char_at item_id 23 = Some "-"%char ∧
  char_at item_id 14 = Some "4"%char.
Proof.
  cbv zeta. generalize (uuid4_version_bits random).
  generalize (UUID.uuid4 random) as n. intros n Hn.
  unfold char_at.
  lazy beta iota zeta delta
    [UUID.str UUID.hex_pad substring String.append String.length String.get].
  repeat split. f_equal. by apply hex_of_version_bits.
Qed.

(* ===================================================================== *)
(** ** Requests on different ids commute *)
(* ===================================================================== *)

Lemma dict_set_set_comm {V} (k1 k2 : string) (v1 v2 : V) (d : dict V) :
  k1 ≠ k2 -> is_Some (dict_get k1 d) -> is_Some (dict_get k2 d) ->
  dict_set k1 v1 (dict_set k2 v2 d) = dict_set k2 v2 (dict_set k1 v1 d).
Proof.
  intros Hne. induction d as [|[k v] d IH]; simpl.
  - by intros [? ?].
  - destruct (decide (k1 = k)) as [->|H1], (decide (k2 = k)) as [->|H2];
      simpl; intros S1 S2.
    + done.
    + by rewrite decide_True, decide_False.
    + by rewrite decide_False, decide_True.
    + rewrite !decide_False by done. by rewrite IH.
Qed.

Lemma dict_del_set_comm {V} (k1 k2 : string) (v : V) (d : dict V) :
  k1 ≠ k2 -> is_Some (dict_get k2 d) ->
  dict_del k1 (dict_set k2 v d) = dict_set k2 v (dict_del k1 d).
Proof.
  intros Hne. induction d as [|[k v0] d IH]; simpl.
  - by intros [? ?].
  - destruct (decide (k1 = k)) as [->|H1], (decide (k2 = k)) as [->|H2];
      simpl; intros S2.
    + done.
    + by rewrite decide_True.
    + by rewrite decide_False, decide_True.
    + rewrite !decide_False by done. by rewrite IH.
Qed.

Lemma dict_del_del_comm {V} (k1 k2 : string) (d : dict V) :
  dict_del k1 (dict_del k2 d) = dict_del k2 (dict_del k1 d).
Proof.
  destruct (decide (k1 = k2)) as [->|Hne]; [done|].
  induction d as [|[k v] d IH]; simpl; [done|].
  destruct (decide (k1 = k)) as [->|H1], (decide (k2 = k)) as [->|H2]; simpl.
  - done.
  - by rewrite decide_True.
  - by rewrite decide_True.
  - rewrite !decide_False by done. by rewrite IH.
Qed.

(** A request on a stored id finds the same entry whatever another
    request, on another id, did before it. *)
Ltac other_id :=
  repeat first
    [ rewrite dict_get_set_ne by congruence
    | rewrite dict_get_del_ne by congruence ].

(** X17. Reads, updates and deletes on different ids commute: run in either
    order they leave the same registry, and the answer to the one on an id
    is the answer it would get if the other had not run. *)
Theorem requests_on_different_ids_commute (req1 req2 : request)
    (db : dict Item) (k1 k2 : string) :
  is_POST req1 = false -> is_POST req2 = false ->
  touched req1 = Some k1 -> touched req2 = Some k2 -> k1 ≠ k2 ->
  (serve req2 (serve req1 db).2).2 = (serve req1 (serve req2 db).2).2 ∧
  (serve req2 (serve req1 db).2).1 = (serve req2 db).1 ∧
  (serve req1 (serve req2 db).2).1 = (serve req1 db).1.
Proof.
  intros P1 P2 T1 T2 Hne.
  destruct req1 as [|i1|b1 r1 t1|i1 b1 t1|i1]; try done;
    destruct req2 as [|i2|b2 r2 t2|i2 b2 t2|i2]; try done;
    simpl in T1, T2; injection T1 as ->; injection T2 as ->;
    simpl; unfold read_item, update_item, delete_item;
    repeat match goal with
      | |- context [parse_ItemUpdate ?b] => destruct (parse_ItemUpdate b)
      end;
    destruct (dict_get k1 db) eqn:E1; destruct (dict_get k2 db) eqn:E2;
    simpl; other_id; rewrite ?E1, ?E2; simpl; other_id; rewrite ?E1, ?E2;
    try done; simpl; split; try done.
  - symmetry. apply dict_set_set_comm; [done | by rewrite E1 | by rewrite E2].
  - apply dict_del_set_comm; [done | by rewrite E1].
  - symmetry. apply dict_del_set_comm; [done | by rewrite E2].
  - apply dict_del_del_comm.
Qed.

Lemma requests_on_different_ids_commute_witness :
  (serve (DELETE_item "other")
     (serve (PUT_item widget_id price_patch 200%Z)
        (dict_set "other" widget widget_db)).2).2 =
  (serve (PUT_item widget_id price_patch 200%Z)
     (serve (DELETE_item "other") (dict_set "other" widget widget_db)).2).2.
Proof.
  apply (requests_on_different_ids_commute
           (PUT_item widget_id price_patch 200%Z) (DELETE_item "other")
           (dict_set "other" widget widget_db) widget_id "other");
    done.
Defined.
